(** * Komu-Labs: the Gemini chess-move relay

    A shallow embedding of the two entry points of the repository,

    - [api/gemini-move.js]: the serverless [handler] and its helper
      [fetchWithRetry];
    - [proxy.js]: the standalone Express server,

    together with the properties of the retry loop, of the move
    sanitization and of the request validation.

    Conventions.  A JavaScript string is the list of its UTF-16 code units.
    A JavaScript number is the rational that the double denotes, and the
    arithmetic of the backoff delay rounds to the nearest double, as
    IEEE 754 binary64 does.  The outside world (the network, [Math.random], the
    environment variable, the engine's wording of its own error messages) is
    a record [Env]; what the code does to the world is recorded in a trace of
    events, threaded through a small state-and-exception monad. *)

From Stdlib Require Import List NArith ZArith QArith Qround Qpower.
From Stdlib Require Import Bool Arith Lia Lqa.
From Stdlib Require Import Ascii String DecimalString Sorted.
Import ListNotations.

Set Implicit Arguments.
Set Warnings "-register-all".

(* ================================================================= *)
(** ** JavaScript strings *)

Module JsString.

(** One UTF-16 code unit. *)
Definition code_unit := N.

Definition jsstring := list code_unit.

(** A string literal of the source (all of them are ASCII). *)
Definition js (s : string) : jsstring :=
  List.map N_of_ascii (list_ascii_of_string s).

(** [a === b] on strings. *)
Fixpoint eqb (a b : jsstring) : bool :=
  match a, b with
  | [], [] => true
  | x :: a', y :: b' => (x =? y)%N && eqb a' b'
  | _, _ => false
  end.

(** [String(n)] for a non-negative integer. *)
Definition of_N (n : N) : jsstring :=
  js (NilEmpty.string_of_uint (N.to_uint n)).

(** ECMAScript [WhiteSpace] and [LineTerminator] code points: the set that
    both [String.prototype.trim] and the regular expression class [\s]
    use. *)
Definition is_ws (c : code_unit) : bool :=
  ((9 <=? c) && (c <=? 13)          (* TAB LF VT FF CR *)
   || (c =? 32)                     (* SPACE *)
   || (c =? 160)                    (* NO-BREAK SPACE *)
   || (c =? 5760)                   (* OGHAM SPACE MARK *)
   || ((8192 <=? c) && (c <=? 8202))(* EN QUAD .. HAIR SPACE *)
   || (c =? 8232) || (c =? 8233)    (* LINE / PARAGRAPH SEPARATOR *)
   || (c =? 8239) || (c =? 8287)    (* NARROW NBSP, MEDIUM MATH SPACE *)
   || (c =? 12288)                  (* IDEOGRAPHIC SPACE *)
   || (c =? 65279))%N.              (* ZERO WIDTH NO-BREAK SPACE *)

Definition ws (c : code_unit) : Prop := is_ws c = true.

Definition no_ws (c : code_unit) : Prop := is_ws c = false.

Fixpoint drop_ws (s : jsstring) : jsstring :=
  match s with
  | [] => []
  | c :: s' => if is_ws c then drop_ws s' else s
  end.

(** [s.trim()] *)
Definition trim (s : jsstring) : jsstring :=
  rev (drop_ws (rev (drop_ws s))).

(** [s.split(/\s/)[0]]: the code units before the first white space one
    (the whole string when there is none, the empty string when [s] is
    empty or starts with white space). *)
Fixpoint split_ws_first (s : jsstring) : jsstring :=
  match s with
  | [] => []
  | c :: s' => if is_ws c then [] else c :: split_ws_first s'
  end.

(** The character class of the regular expression of line 116: the
    apostrophe (39), the double quote (34), the backtick (96) and the
    full stop (46). *)
Definition is_quote_or_dot (c : code_unit) : bool :=
  ((c =? 39) || (c =? 34) || (c =? 96) || (c =? 46))%N.

(** [s.replace(re, '')] with that class and the global flag: every match
    is replaced by nothing. *)
Fixpoint remove_quotes_dots (s : jsstring) : jsstring :=
  match s with
  | [] => []
  | c :: s' =>
      if is_quote_or_dot c then remove_quotes_dots s'
      else c :: remove_quotes_dots s'
  end.

End JsString.
Import JsString.

(* ================================================================= *)
(** ** The sanitization of [handler] (lines 113-116) *)

(** [const rawMove = text.trim();] *)
Definition rawMove (text : jsstring) : jsstring := trim text.

(** [const cleanedMove = rawMove.split(/\s/)[0].replace(re, '');] *)
Definition cleanedMove (raw : jsstring) : jsstring :=
  remove_quotes_dots (split_ws_first raw).

(** Both lines, from the extracted text to the move that is sent back. *)
Definition sanitize (text : jsstring) : jsstring :=
  cleanedMove (rawMove text).


(* ================================================================= *)
(** ** JavaScript numbers *)

(** The doubles, as the rationals they denote, and the rounding that every
    arithmetic operation of the language ends with.  Infinities and NaN are
    left out: the numbers of this program stay far below [2^1024]. *)
Module Binary64.

(** [2^k], for any integer [k]. *)
Definition pow2 (k : Z) : Q := 2 ^ k.

(** The integer part of the base-2 logarithm of [x > 0]. *)
Definition ilog2 (x : Q) : Z :=
  let e0 := (Z.log2 (Qnum x) - Z.log2 (Zpos (Qden x)))%Z in
  if Qle_bool (pow2 e0) x then e0 else (e0 - 1)%Z.

(** Rounding to the nearest integer, ties to the even one. *)
Definition RNE (x : Q) : Z :=
  let f := Qfloor x in
  match Qcompare (x - inject_Z f) (1 # 2) with
  | Lt => f
  | Gt => (f + 1)%Z
  | Eq => if Z.even f then f else (f + 1)%Z
  end.

(** The exponent of the unit in the last place of the doubles near [x > 0]:
    53 bits of precision, and the subnormal range below [2^-1022]. *)
Definition quantum (x : Q) : Z := (Z.max (ilog2 x) (-1022) - 52)%Z.

Definition round_pos (x : Q) : Q :=
  inject_Z (RNE (x * pow2 (- quantum x))) * pow2 (quantum x).

(** The double nearest to [x], ties to even, as a reduced fraction. *)
Definition round64 (x : Q) : Q :=
  match Qcompare x 0 with
  | Eq => 0
  | Gt => Qred (round_pos x)
  | Lt => Qred (- round_pos (- x))
  end.

(** [x * y] and [x + y] on doubles. *)
Definition fmul (x y : Q) : Q := round64 (x * y).

Definition fadd (x y : Q) : Q := round64 (x + y).

End Binary64.
Import Binary64.

(* ================================================================= *)
(** ** JavaScript values, exceptions and the outside world *)

(** The values that [JSON.parse] produces, and [undefined].  A number is the
    rational it denotes; an object is the list of its own properties, looked
    up by the first matching key. *)
Inductive value : Type :=
| VUndefined
| VNull
| VBool (b : bool)
| VNum (q : Q)
| VStr (s : jsstring)
| VArr (elems : list value)
| VObj (props : list (jsstring * value)).

(** A thrown [Error] object: its [name] and its [message]. *)
Record Error : Type := mkError { name : jsstring; message : jsstring }.

(** [new Error(msg)] *)
Definition new_Error (msg : jsstring) : Error := mkError (js "Error") msg.

Inductive Result (A : Type) : Type :=
| Ok (a : A)
| Throw (e : Error).
Arguments Ok {A} a.
Arguments Throw {A} e.

(** The faults that the engine itself raises as a [TypeError]; the wording of
    the message is the engine's. *)
Inductive EngineFault : Type :=
| PropertyOfNullish (base : value) (prop : jsstring)
    (* reading [base.prop] or [base[0]] when [base] is null or undefined *)
| DestructureNullish (base : value)
    (* [const { a, b } = base] when [base] is null or undefined *)
| NotAFunction (prop : jsstring)
    (* calling [x.prop()] when [x.prop] is not a function *)
| NotPrimitive (v : value).
    (* converting to a string an object whose [toString] is not a function *)

(** The [Response] object that [fetch] resolves with.  [text] and [json] are
    what awaiting [response.text()] and [response.json()] gives: the body,
    or the exception of a failed read or of a failed parse. *)
Record Response : Type := mkResponse {
  status : N;
  ok : bool;
  text : Result jsstring;
  json : Result value
}.

(** What awaiting one call of [fetch] gives. *)
Inductive FetchOutcome : Type :=
| Rejected (e : Error)          (* the transport throws *)
| Resolved (r : Response).

(** The options object passed to [fetch].  [body] is the value that the
    source hands to [JSON.stringify]; the serialization itself is the
    runtime's. *)
Record FetchOptions : Type := mkFetchOptions {
  fo_method : jsstring;
  fo_headers : list (jsstring * jsstring);
  fo_body : value
}.

Inductive ConsoleLevel : Type := Log | Warn | Err.

(** What the code does to the world, in the order in which it does it.  The
    text written to the console is not recorded, only that something was
    written. *)
Inductive Event : Type :=
| EvFetch (url : jsstring) (options : FetchOptions)
| EvRandom
| EvSleep (ms : Q)
| EvConsole (level : ConsoleLevel).

Definition Trace := list Event.

(** The outside world.  [upstream n] is what the [n]-th call of [fetch]
    (counted from 0 over the whole trace) gives; [random n] is the [n]-th
    result of [Math.random()]. *)
Record Env : Type := mkEnv {
  GEMINI_API_KEY : option jsstring;        (* process.env.GEMINI_API_KEY *)
  upstream : nat -> FetchOutcome;
  random : nat -> Q;
  Number_toString : Q -> jsstring;         (* the engine's Number::toString *)
  engine_message : EngineFault -> jsstring
}.

Definition is_fetch (e : Event) : bool :=
  match e with EvFetch _ _ => true | _ => false end.

Definition is_random (e : Event) : bool :=
  match e with EvRandom => true | _ => false end.

(** The number of outbound calls made so far. *)
Definition fetch_count (tr : Trace) : nat := List.length (filter is_fetch tr).

Definition random_count (tr : Trace) : nat := List.length (filter is_random tr).

(** The delays slept so far, oldest first. *)
Fixpoint sleeps (tr : Trace) : list Q :=
  match tr with
  | [] => []
  | EvSleep d :: tr' => d :: sleeps tr'
  | _ :: tr' => sleeps tr'
  end.

(* ----------------------------------------------------------------- *)
(** *** The monad: a trace threaded through, and exceptions *)

Definition M (A : Type) : Type := Trace -> Result A * Trace.

Definition ret {A} (a : A) : M A := fun tr => (Ok a, tr).

Definition throw {A} (e : Error) : M A := fun tr => (Throw e, tr).

Definition bind {A B} (m : M A) (k : A -> M B) : M B :=
  fun tr =>
    match m tr with
    | (Ok a, tr') => k a tr'
    | (Throw e, tr') => (Throw e, tr')
    end.

(** [try { m } catch (error) { h error }] *)
Definition try_catch {A} (m : M A) (h : Error -> M A) : M A :=
  fun tr =>
    match m tr with
    | (Ok a, tr') => (Ok a, tr')
    | (Throw e, tr') => h e tr'
    end.

(** Awaiting a promise whose outcome is already decided. *)
Definition await {A} (r : Result A) : M A := fun tr => (r, tr).

Definition emit (e : Event) : M unit := fun tr => (Ok tt, tr ++ [e]).

Declare Scope js_scope.
Delimit Scope js_scope with js.
Notation "x <- m ;; k" := (bind m (fun x => k))
  (at level 61, m at next level, right associativity) : js_scope.
Notation "m ;;; k" := (bind m (fun _ => k))
  (at level 61, right associativity) : js_scope.
Open Scope js_scope.

(* ================================================================= *)
(** ** Primitive operations of the language and of the runtime *)

Section Runtime.

Variable E : Env.

(** Truthiness, as tested by [!x] and [x || y]. *)
Definition truthy (v : value) : bool :=
  match v with
  | VUndefined | VNull => false
  | VBool b => b
  | VNum q => negb (Qeq_bool q 0)
  | VStr s => match s with [] => false | _ :: _ => true end
  | VArr _ | VObj _ => true
  end.

Definition nullish (v : value) : bool :=
  match v with VUndefined | VNull => true | _ => false end.

(** An environment variable is a string or is not set. *)
Definition env_value (o : option jsstring) : value :=
  match o with Some s => VStr s | None => VUndefined end.

Definition TypeError (f : EngineFault) : Error :=
  mkError (js "TypeError") (engine_message E f).

Fixpoint lookup (key : jsstring) (props : list (jsstring * value)) : value :=
  match props with
  | [] => VUndefined
  | (k, v) :: props' => if eqb k key then v else lookup key props'
  end.

(** [base.prop], for the property names that the source reads ([fen],
    [candidates], [content], [parts], [text], [error], [message],
    [prompt], [model]): none of them is a property of a string, a number,
    a boolean or an array, nor of their prototypes. *)
Definition get (base : value) (prop : jsstring) : Result value :=
  match base with
  | VUndefined | VNull => Throw (TypeError (PropertyOfNullish base prop))
  | VObj props => Ok (lookup prop props)
  | VBool _ | VNum _ | VStr _ | VArr _ => Ok VUndefined
  end.

(** [base[0]] *)
Definition get0 (base : value) : Result value :=
  match base with
  | VUndefined | VNull => Throw (TypeError (PropertyOfNullish base (js "0")))
  | VObj props => Ok (lookup (js "0") props)
  | VArr elems => Ok (match elems with [] => VUndefined | v :: _ => v end)
  | VStr s => Ok (match s with [] => VUndefined | c :: _ => VStr [c] end)
  | VBool _ | VNum _ => Ok VUndefined
  end.

(** One link [base?.access] of an optional chain: the rest of the chain
    is skipped, with the value [undefined], when [base] is nullish. *)
Definition optional (base : value) (access : value -> Result value)
  : Result value :=
  if nullish base then Ok VUndefined else access base.

(** Sequencing of evaluations that may throw. *)
Definition and_then {A B} (r : Result A) (k : A -> Result B) : Result B :=
  match r with Ok a => k a | Throw e => Throw e end.

(** [props] has an own property [key]. *)
Definition has_own (key : jsstring) (props : list (jsstring * value)) : bool :=
  existsb (fun kv => eqb (fst kv) key) props.

(** The conversion of a template literal's substitution to a string
    (ECMAScript's ToString), on the values that [JSON.parse] produces.  An
    array is joined with commas, null and undefined elements giving the
    empty string.  An object without an own [toString] gives the text of
    [Object.prototype.toString]; an object with one cannot be converted,
    since no value of JSON is a function, and the conversion throws. *)
Fixpoint ToString (v : value) : Result jsstring :=
  match v with
  | VUndefined => Ok (js "undefined")
  | VNull => Ok (js "null")
  | VBool true => Ok (js "true")
  | VBool false => Ok (js "false")
  | VNum q => Ok (Number_toString E q)
  | VStr s => Ok s
  | VArr elems =>
      (fix join (l : list value) : Result jsstring :=
         match l with
         | [] => Ok []
         | x :: rest =>
             and_then (if nullish x then Ok [] else ToString x) (fun s =>
             match rest with
             | [] => Ok s
             | _ :: _ => and_then (join rest) (fun t => Ok (s ++ js "," ++ t))
             end)
         end) elems
  | VObj props =>
      if has_own (js "toString") props then Throw (TypeError (NotPrimitive v))
      else Ok (js "[object Object]")
  end.

(** [v.trim()] *)
Definition call_trim (v : value) : Result jsstring :=
  match v with
  | VStr s => Ok (trim s)
  | VUndefined | VNull => Throw (TypeError (PropertyOfNullish v (js "trim")))
  | _ => Throw (TypeError (NotAFunction (js "trim")))
  end.

(** [await fetch(url, options)]: the call is recorded, and its outcome is
    the upstream's for a call of that rank. *)
Definition fetch (url : jsstring) (options : FetchOptions) : M Response :=
  fun tr =>
    match upstream E (fetch_count tr) with
    | Rejected e => (Throw e, tr ++ [EvFetch url options])
    | Resolved r => (Ok r, tr ++ [EvFetch url options])
    end.

(** [Math.random()] *)
Definition Math_random : M Q :=
  fun tr => (Ok (random E (random_count tr)), tr ++ [EvRandom]).

(** [await new Promise(resolve => setTimeout(resolve, delay))] *)
Definition sleep (delay : Q) : M unit := emit (EvSleep delay).

Definition console (level : ConsoleLevel) : M unit := emit (EvConsole level).

(* =============================================================== *)
(** ** [fetchWithRetry] (api/gemini-move.js, lines 15-35) *)

(** [Math.pow(2, i) * 1000 + r * 1000], [r] the result of
    [Math.random()]: two products and a sum on doubles. *)
Definition backoff_delay (i : nat) (r : Q) : Q :=
  fadd (fmul (inject_Z (2 ^ Z.of_nat i)) 1000) (fmul r 1000).

(** The body of the [try] block, lines 18-27. *)
Definition attempt (url : jsstring) (options : FetchOptions) : M Response :=
  response <- fetch url options ;;
  if (status response =? 429)%N then
    throw (new_Error (js "Rate limit exceeded"))
  else if negb (ok response) then
    errorBody <- await (text response) ;;
    throw (new_Error (js "HTTP error! status: " ++ of_N (status response)
                      ++ js ". Body: " ++ errorBody))
  else ret response.

(** The [for] loop, entered with counter [i] and [remaining] iterations to
    go ([remaining = maxRetries - i]).  Falling off the loop returns
    [undefined], here [None]. *)
Fixpoint retry_loop (url : jsstring) (options : FetchOptions)
    (maxRetries : nat) (remaining : nat) (i : nat) : M (option Response) :=
  match remaining with
  | O => ret None
  | S remaining' =>
      try_catch
        (response <- attempt url options ;; ret (Some response))
        (fun error =>
           if (i =? maxRetries - 1)%nat then throw error
           else
             r <- Math_random ;;
             let delay := backoff_delay i r in
             console Warn ;;;
             sleep delay ;;;
             retry_loop url options maxRetries remaining' (S i))
  end.

Definition fetchWithRetry (url : jsstring) (options : FetchOptions)
    (maxRetries : nat) : M (option Response) :=
  retry_loop url options maxRetries maxRetries 0.

(** The default value of the parameter [maxRetries]. *)
Definition default_maxRetries : nat := 5.

(* =============================================================== *)
(** ** The serverless [handler] (api/gemini-move.js, lines 38-127) *)

(** The inbound request.  Reading [request.body] parses the body, and may
    throw. *)
Record Request : Type := mkRequest {
  method : jsstring;
  body : Result value
}.

(** What is written to the [response] object: the headers set, the status
    and the JSON body ([None] after [end()]). *)
Record Reply : Type := mkReply {
  reply_headers : list (jsstring * jsstring);
  reply_status : N;
  reply_body : option value
}.

Definition GEMINI_API_BASE : jsstring :=
  js "https://generativelanguage.googleapis.com/v1beta/models/".

Definition MODEL_NAME : jsstring := js "gemini-2.5-flash-preview-09-2025".

Definition SYSTEM_INSTRUCTION : jsstring :=
  js "You are a world-class chess engine. Your sole task is to analyze the current board state (provided as a FEN string) and respond ONLY with the best move in Standard Algebraic Notation (SAN), without any surrounding text, markdown, or explanation. The response must be a single, valid chess move (e.g., 'e4', 'Nf3', 'Qxg7'). Do not use move tokens (e.g., e2e4) unless necessary for ambiguity.".

(** Lines 41-43. *)
Definition cors_headers : list (jsstring * jsstring) :=
  [ (js "Access-Control-Allow-Origin", js "*");
    (js "Access-Control-Allow-Methods", js "POST, OPTIONS");
    (js "Access-Control-Allow-Headers", js "Content-Type") ].

(** [response.status(code).end()] *)
Definition status_end (code : N) : Reply := mkReply cors_headers code None.

(** [response.status(code).json(v)] *)
Definition status_json (code : N) (v : value) : Reply :=
  mkReply cors_headers code (Some v).

(** [{ error: msg }] *)
Definition error_object (msg : jsstring) : value :=
  VObj [ (js "error", VStr msg) ].

(** [x.text], [x.parts] and the like wrapped for a chain. *)
Definition prop (p : jsstring) : value -> Result value :=
  fun base => get base p.

(** [result.candidates?.[0]] (line 103) *)
Definition first_candidate (result : value) : Result value :=
  and_then (get result (js "candidates")) (fun cs => optional cs get0).

(** [candidate.content?.parts?.[0]?.text] (line 105) *)
Definition optional_text (candidate : value) : Result value :=
  and_then (get candidate (js "content")) (fun content =>
  optional content (fun content =>
  and_then (get content (js "parts")) (fun parts =>
  optional parts (fun parts =>
  and_then (get0 parts) (fun part =>
  optional part (prop (js "text"))))))).

(** [candidate.content.parts[0].text] (line 113) *)
Definition strict_text (candidate : value) : Result value :=
  and_then (get candidate (js "content")) (fun content =>
  and_then (get content (js "parts")) (fun parts =>
  and_then (get0 parts) (prop (js "text")))).

(** [result.error?.message || 'Gemini returned ...'] (line 107) *)
Definition upstream_error_message (result : value) : Result value :=
  and_then (get result (js "error")) (fun error =>
  and_then (optional error (prop (js "message"))) (fun m =>
  Ok (if truthy m then m
      else VStr (js "Gemini returned an empty or invalid response.")))).

(** Line 79.  The conversion of [fen] can throw. *)
Definition userPrompt (fen : value) : Result jsstring :=
  and_then (ToString fen) (fun s =>
  Ok (js "Analyze the current board state provided by this FEN string and give the single best move: "
      ++ s)).

(** Line 81. *)
Definition apiUrl (geminiApiKey : value) : Result jsstring :=
  and_then (ToString geminiApiKey) (fun key =>
  Ok (GEMINI_API_BASE ++ MODEL_NAME ++ js ":generateContent?key=" ++ key)).

(** Lines 83-91. *)
Definition payload (userPrompt : jsstring) : value :=
  VObj [ (js "contents",
           VArr [ VObj [ (js "parts",
                           VArr [ VObj [ (js "text", VStr userPrompt) ] ]) ] ]);
         (js "systemInstruction",
           VObj [ (js "parts",
                    VArr [ VObj [ (js "text", VStr SYSTEM_INSTRUCTION) ] ]) ]);
         (js "generationConfig",
           VObj [ (js "temperature", VNum (1 # 10)) ]) ].

(** Lines 94-98. *)
Definition fetchOptions (payload : value) : FetchOptions :=
  mkFetchOptions (js "POST")
    [ (js "Content-Type", js "application/json") ]
    payload.

(** Lines 101-121: from the response that [fetchWithRetry] returned to the
    reply.  The templates of lines 109 and 118 convert [errorMessage] and
    [fen] to strings. *)
Definition unwrap_response (fen : value) (apiResponse : option Response)
  : M Reply :=
  result <- match apiResponse with
            | Some r => await (json r)
            | None => throw (TypeError (PropertyOfNullish VUndefined (js "json")))
            end ;;
  candidate <- await (first_candidate result) ;;
  unusable <- (if negb (truthy candidate) then ret true
               else t <- await (optional_text candidate) ;;
                    ret (negb (truthy t))) ;;
  if unusable : bool then
    errorMessage <- await (upstream_error_message result) ;;
    console Err ;;;
    text <- await (ToString errorMessage) ;;
    ret (status_json 502 (error_object (js "Gemini API Error: " ++ text)))
  else
    t <- await (strict_text candidate) ;;
    rawMove <- await (call_trim t) ;;
    let cleanedMove := cleanedMove rawMove in
    _ <- await (ToString fen) ;;
    console Log ;;;
    ret (status_json 200 (VObj [ (js "move", VStr cleanedMove) ])).

(** Lines 93-126. *)
Definition call_gemini (apiUrl : jsstring) (payload fen : value) : M Reply :=
  try_catch
    (apiResponse <- fetchWithRetry apiUrl (fetchOptions payload)
                      default_maxRetries ;;
     unwrap_response fen apiResponse)
    (fun error =>
       console Err ;;;
       ret (status_json 500
              (VObj [ (js "error", VStr (js "Failed to communicate with the Gemini API."));
                      (js "details", VStr (message error)) ]))).

Definition handler (request : Request) : M Reply :=
  if eqb (method request) (js "OPTIONS") then ret (status_end 200)
  else if negb (eqb (method request) (js "POST")) then
    ret (status_json 405 (error_object (js "Method Not Allowed. Use POST.")))
  else
    let geminiApiKey := env_value (GEMINI_API_KEY E) in
    if negb (truthy geminiApiKey) then
      console Err ;;;
      ret (status_json 500
             (error_object (js "Server configuration error: Gemini API Key is missing.")))
    else
      match and_then (body request) (prop (js "fen")) with
      | Throw _ =>
          ret (status_json 400 (error_object (js "Invalid JSON request body.")))
      | Ok fen =>
          if negb (truthy fen) then
            ret (status_json 400
                   (error_object (js "Missing FEN string in request body.")))
          else
            userPrompt <- await (userPrompt fen) ;;
            apiUrl <- await (apiUrl geminiApiKey) ;;
            call_gemini apiUrl (payload userPrompt) fen
      end.

(* =============================================================== *)
(** ** The standalone server (proxy.js) *)

(** The state of the Node process after the top level of the module has
    run. *)
Inductive Process : Type :=
| Exited (code : N)
| Listening (port : N).

Definition PORT : N := 3000.

(** Lines 17-22 and 57-60: the key is read once; without it the process
    exits before [app.listen]. *)
Definition proxy_main : M Process :=
  if negb (truthy (env_value (GEMINI_API_KEY E))) then
    console Err ;;; ret (Exited 1)
  else
    console Log ;;; console Log ;;; ret (Listening PORT).

(** The request as the route callback sees it, after [express.json()]. *)
Record ExpressRequest : Type := mkExpressRequest { req_body : value }.

(** [res.status(code).json(v)]; the CORS headers are the [cors]
    middleware's business. *)
Definition res_status_json (code : N) (v : value) : Reply :=
  mkReply [] code (Some v).

(** [res.json(v)]: the status is Express' default. *)
Definition res_json (v : value) : Reply := mkReply [] 200 (Some v).

(** [const { prompt, model } = req.body;] *)
Definition destructure_prompt_model (b : value) : Result (value * value) :=
  if nullish b then Throw (TypeError (DestructureNullish b))
  else and_then (get b (js "prompt")) (fun prompt =>
       and_then (get b (js "model")) (fun model =>
       Ok (prompt, model))).

(** Line 35.  The conversion of [model] can throw. *)
Definition geminiUrl (model : value) : Result jsstring :=
  and_then (ToString model) (fun m =>
  and_then (ToString (env_value (GEMINI_API_KEY E))) (fun key =>
  Ok (js "https://generativelanguage.googleapis.com/v1beta/models/"
      ++ m ++ js ":generateContent?key=" ++ key))).

Definition proxy_options (prompt : value) : FetchOptions :=
  mkFetchOptions (js "POST")
    [ (js "Content-Type", js "application/json") ]
    (VObj [ (js "contents",
              VArr [ VObj [ (js "role", VStr (js "user"));
                            (js "parts", VArr [ VObj [ (js "text", prompt) ] ]) ] ]);
            (js "generationConfig",
              VObj [ (js "temperature", VNum (3 # 10));
                     (js "maxOutputTokens", VNum 64) ]) ]).

(** The callback of [app.post('/api/gemini-move', ...)], lines 25-55. *)
Definition proxy_post (req : ExpressRequest) : M Reply :=
  try_catch
    (pm <- await (destructure_prompt_model (req_body req)) ;;
     let '(prompt, model) := pm in
     if negb (truthy prompt) || negb (truthy model) then
       ret (res_status_json 400
              (error_object (js "Missing 'prompt' or 'model' in request body.")))
     else
       geminiUrl <- await (geminiUrl model) ;;
       geminiResponse <- fetch geminiUrl (proxy_options prompt) ;;
       data <- await (json geminiResponse) ;;
       ret (res_json data))
    (fun error =>
       console Err ;;;
       ret (res_status_json 500
              (error_object
                 (if truthy (VStr (message error)) then message error
                  else js "An unknown error occurred in the proxy.")))).

(** One request sent to a freshly started server: it is answered only if
    the process is listening. *)
Definition proxy_serve (req : ExpressRequest) : M (option Reply) :=
  p <- proxy_main ;;
  match p with
  | Exited _ => ret None
  | Listening _ => reply <- proxy_post req ;; ret (Some reply)
  end.

End Runtime.

(* ================================================================= *)
(** ** Vocabulary for the properties *)

(** An attempt fails when the transport throws, when the status is 429, or
    when the status is not a success status (lines 19 and 22). *)
Definition fails (o : FetchOutcome) : bool :=
  match o with
  | Rejected _ => true
  | Resolved r => (status r =? 429)%N || negb (ok r)
  end.

(** The error of a failed attempt: the transport's own, or the one that
    lines 20 and 25 build (or the one of [response.text()], if reading the
    body of the error response fails). *)
Definition failure (o : FetchOutcome) : Error :=
  match o with
  | Rejected e => e
  | Resolved r =>
      if (status r =? 429)%N then new_Error (js "Rate limit exceeded")
      else match text r with
           | Ok errorBody =>
               new_Error (js "HTTP error! status: " ++ of_N (status r)
                          ++ js ". Body: " ++ errorBody)
           | Throw e => e
           end
  end.

(** The events of one failed attempt that is followed by a retry: the call,
    the draw of the jitter, the warning and the sleep. *)
Definition failed_round (url : jsstring) (options : FetchOptions)
    (i : nat) (r : Q) : Trace :=
  [ EvFetch url options; EvRandom; EvConsole Warn; EvSleep (backoff_delay i r) ].

(** [k] such rounds in a row, for the attempts [i], [i + 1], ..., the
    jitters being the draws [n], [n + 1], ... *)
Fixpoint failed_rounds (E : Env) (url : jsstring) (options : FetchOptions)
    (k i n : nat) : Trace :=
  match k with
  | O => []
  | S k' =>
      failed_round url options i (random E n)
      ++ failed_rounds E url options k' (S i) (S n)
  end.

(** A computation is quiet when its result does not depend on the trace it
    starts from, and all it does to the world is to write to the console. *)
Definition quiet {A} (m : M A) : Prop :=
  exists (res : Result A) (levels : list ConsoleLevel),
    forall tr, m tr = (res, tr ++ List.map EvConsole levels).

(** The same world, with another upstream. *)
Definition with_upstream (E : Env) (u : nat -> FetchOutcome) : Env :=
  mkEnv (GEMINI_API_KEY E) u (random E) (Number_toString E)
    (engine_message E).

(** The key, when there is one. *)
Definition the_key (E : Env) : jsstring :=
  match GEMINI_API_KEY E with Some key => key | None => [] end.

(** The URL that the handler calls (line 81). *)
Definition request_url (E : Env) : jsstring :=
  GEMINI_API_BASE ++ MODEL_NAME ++ js ":generateContent?key=" ++ the_key E.

(** The options that the handler passes for a position whose text is
    [fen_text] (lines 79-98). *)
Definition request_options (fen_text : jsstring) : FetchOptions :=
  fetchOptions
    (payload
       (js "Analyze the current board state provided by this FEN string and give the single best move: "
        ++ fen_text)).

(** From the trace [tr] on, the upstream fails [k] times, fewer than five,
    and then answers with the success response [r]. *)
Definition succeeds_after (E : Env) (tr : Trace) (k : nat) (r : Response)
  : Prop :=
  (k < 5)%nat
  /\ (forall j, (j < k)%nat -> fails (upstream E (fetch_count tr + j)) = true)
  /\ upstream E (fetch_count tr + k) = Resolved r
  /\ fails (Resolved r) = false.

(** The key is configured: set, and not the empty string (line 58). *)
Definition configured (E : Env) : bool :=
  truthy (env_value (GEMINI_API_KEY E)).

(** The request passes the checks of lines 46-75 and carries the position
    [fen]. *)
Definition accepted (E : Env) (request : Request) (fen : value) : Prop :=
  method request = js "POST"
  /\ configured E = true
  /\ and_then (body request) (prop E (js "fen")) = Ok fen
  /\ truthy fen = true.

(** The position is missing: the body cannot be read, has no [fen], or has
    a falsy one. *)
Definition fen_missing (E : Env) (request : Request) : bool :=
  match and_then (body request) (prop E (js "fen")) with
  | Throw _ => true
  | Ok fen => negb (truthy fen)
  end.

(** The prompt or the model is missing: there is no body to take them from,
    or the body has none, or a falsy one. *)
Definition prompt_or_model_missing (E : Env) (req : ExpressRequest) : bool :=
  match destructure_prompt_model E (req_body req) with
  | Throw _ => true
  | Ok (prompt, model) => negb (truthy prompt) || negb (truthy model)
  end.

(** [result.candidates?.[0]?.content?.parts?.[0]?.text]: the expected
    result field of an upstream body. *)
Definition result_text (E : Env) (result : value) : Result value :=
  and_then (first_candidate E result) (fun c => optional c (optional_text E)).


(** The reply of lines 125: the catch-all of the handler. *)
Definition communication_failure (details : jsstring) : Reply :=
  status_json 500
    (VObj [ (js "error", VStr (js "Failed to communicate with the Gemini API."));
            (js "details", VStr details) ]).

(** The reply of line 109, for the message [m]. *)
Definition gemini_api_error (m : jsstring) : Reply :=
  status_json 502 (error_object (js "Gemini API Error: " ++ m)).

(** The reply carries a move. *)
Definition has_move (reply : Reply) : bool :=
  match reply_body reply with
  | Some (VObj props) =>
      match lookup (js "move") props with VUndefined => false | _ => true end
  | _ => false
  end.

(* ================================================================= *)
(** ** The specification's wording, for comparison with the code *)

(** The sanitization as section 4.1, step 5 of the specification words it:
    the first token, without quote characters and without _trailing_ full
    stops. *)
Module AsSpecified.

Definition is_quote (c : code_unit) : bool :=
  ((c =? 39) || (c =? 34) || (c =? 96))%N.

Fixpoint drop_dots (s : jsstring) : jsstring :=
  match s with
  | [] => []
  | c :: s' => if (c =? 46)%N then drop_dots s' else s
  end.

Definition strip_trailing_dots (s : jsstring) : jsstring :=
  rev (drop_dots (rev s)).

Definition sanitize (text : jsstring) : jsstring :=
  strip_trailing_dots
    (filter (fun c => negb (is_quote c)) (split_ws_first (trim text))).

End AsSpecified.

(** The delays slept between attempt [i - 1] and attempt [i] (before the
    first attempt when [i = 0]), read off a trace. *)
Fixpoint sleeps_before_attempt (tr : Trace) (i : nat) : list Q :=
  match tr with
  | [] => []
  | EvFetch _ _ :: tr' =>
      match i with O => [] | S i' => sleeps_before_attempt tr' i' end
  | EvSleep d :: tr' =>
      match i with
      | O => d :: sleeps_before_attempt tr' O
      | S _ => sleeps_before_attempt tr' i
      end
  | _ :: tr' => sleeps_before_attempt tr' i
  end.

Definition total (ds : list Q) : Q := fold_right Qplus 0 ds.

(** The interval [[2^i * 1000, 2^i * 1000 + 1000)]. *)
Definition in_backoff_window (i : nat) (d : Q) : Prop :=
  inject_Z (2 ^ Z.of_nat i) * 1000 <= d
  /\ d < inject_Z (2 ^ Z.of_nat i) * 1000 + 1000.

(** The same interval with its upper end, which rounding can reach. *)
Definition in_backoff_range (i : nat) (d : Q) : Prop :=
  inject_Z (2 ^ Z.of_nat i) * 1000 <= d
  /\ d <= inject_Z (2 ^ Z.of_nat i) * 1000 + 1000.

(** Section 8 of the specification, on the trace of a run of five failed
    attempts: one delay before each attempt [i], in the window of [i]. *)
Definition backoff_as_specified (tr : Trace) : Prop :=
  forall i, (i < 5)%nat ->
    exists d, sleeps_before_attempt tr i = [d] /\ in_backoff_window i d.

(** What a caller can tell of one request: the status and the body of the
    reply, and how many outbound calls were made for it. *)
Definition observation (run : Result Reply * Trace) : option (N * option value) * nat :=
  (match fst run with
   | Ok reply => Some (reply_status reply, reply_body reply)
   | Throw _ => None
   end,
   fetch_count (snd run)).

Definition post_fen (fen : jsstring) : Request :=
  mkRequest (js "POST") (Ok (VObj [ (js "fen", VStr fen) ])).

Definition post_prompt (prompt model : jsstring) : ExpressRequest :=
  mkExpressRequest
    (VObj [ (js "prompt", VStr prompt); (js "model", VStr model) ]).

(** Section 1 of the specification: both entry points perform the same
    function, whatever the upstream does. *)
Definition same_function_as_specified : Prop :=
  forall (E : Env) (key fen prompt model : jsstring),
    GEMINI_API_KEY E = Some key -> key <> [] ->
    fen <> [] -> prompt <> [] -> model <> [] ->
    observation (handler E (post_fen fen) [])
    = observation (proxy_post E (post_prompt prompt model) []).

(* ================================================================= *)
(** ** Sample worlds *)

Module Sample.

(** The body of a successful answer whose first candidate's first part
    holds [t]. *)
Definition answer (t : jsstring) : value :=
  VObj [ (js "candidates",
           VArr [ VObj [ (js "content",
                           VObj [ (js "parts",
                                    VArr [ VObj [ (js "text", VStr t) ] ]) ]) ] ]) ].

Definition success (t : jsstring) : Response :=
  mkResponse 200 true (Ok (js "{...}")) (Ok (answer t)).

Definition quota_body : value :=
  VObj [ (js "error", VObj [ (js "message", VStr (js "Quota exceeded")) ]) ].

Definition rate_limited : Response :=
  mkResponse 429 false (Ok (js "slow down")) (Ok quota_body).

Definition unavailable : Response :=
  mkResponse 503 false (Ok (js "overloaded")) (Ok VNull).


Definition ECONNRESET : Error := mkError (js "FetchError") (js "socket hang up").

(** The upstream gives the outcomes of [script] in turn, then [rest] for
    ever; [Math.random()] gives [jitter] every time. *)
Definition world (key : option jsstring) (script : list FetchOutcome)
    (rest : FetchOutcome) (jitter : Q) : Env :=
  mkEnv key (fun n => nth n script rest) (fun _ => jitter)
    (fun q => of_N (Z.to_N (Qfloor q))) (fun _ => js "TypeError").

Definition secret : option jsstring := Some (js "s3cret").

Definition url : jsstring := js "https://upstream.example/".

Definition options : FetchOptions := mkFetchOptions (js "POST") [] VNull.


(** Every call is answered 429. *)
Definition always_429 : Env := world secret [] (Resolved rate_limited) 0.

(** Every call is answered 429, and the jitter is half a second. *)
Definition always_429_jittery : Env :=
  world secret [] (Resolved rate_limited) (1 # 2).

(** A 429, then a broken connection, then the move e4 in quotes. *)
Definition flaky : Env :=
  world secret [ Resolved rate_limited; Rejected ECONNRESET ]
    (Resolved (success (js " 'e4'. "))) (1 # 2).

(** A 429, then the move e4. *)
Definition once_limited : Env :=
  world secret [ Resolved rate_limited ] (Resolved (success (js "e4"))) 0.

(** The largest double below 1. *)
Definition almost_one : Q := 9007199254740991 # 9007199254740992.

(** Every call is answered 429, and the jitter is the largest there is. *)
Definition always_429_slowest : Env :=
  world secret [] (Resolved rate_limited) almost_one.

(** The key is not set. *)
Definition unconfigured : Env :=
  world None [] (Resolved (success (js "e4"))) 0.



Definition options_request : Request := mkRequest (js "OPTIONS") (Ok VUndefined).

Definition empty_post : Request := mkRequest (js "POST") (Ok (VObj [])).

Definition empty_body : ExpressRequest := mkExpressRequest (VObj []).

Definition no_body : ExpressRequest := mkExpressRequest VUndefined.

End Sample.

(* ================================================================= *)
(** ** Vocabulary for the properties of the replies and of the traces *)

(** A code unit that the regular expression of line 116 leaves alone. *)
Definition plain (c : code_unit) : Prop := is_quote_or_dot c = false.

(** The replies that [handler] writes: the line of the source that writes
    each one is given. *)
Inductive handler_reply : Reply -> Prop :=
| reply_preflight :                                   (* line 47 *)
    handler_reply (status_end 200)
| reply_method_not_allowed :                          (* line 52 *)
    handler_reply
      (status_json 405 (error_object (js "Method Not Allowed. Use POST.")))
| reply_key_missing :                                 (* line 60 *)
    handler_reply
      (status_json 500
         (error_object (js "Server configuration error: Gemini API Key is missing.")))
| reply_fen_missing :                                 (* line 70 *)
    handler_reply
      (status_json 400 (error_object (js "Missing FEN string in request body.")))
| reply_body_invalid :                                (* line 74 *)
    handler_reply
      (status_json 400 (error_object (js "Invalid JSON request body.")))
| reply_upstream_error (m : jsstring) :               (* line 109 *)
    handler_reply (gemini_api_error m)
| reply_move (raw : jsstring) :                       (* line 121 *)
    handler_reply
      (status_json 200 (VObj [ (js "move", VStr (cleanedMove raw)) ]))
| reply_failure (details : jsstring) :                (* line 125 *)
    handler_reply (communication_failure details).

(** The replies that the callback of the standalone server writes. *)
Inductive proxy_reply : Reply -> Prop :=
| proxy_bad_request :                                 (* line 31 *)
    proxy_reply
      (res_status_json 400
         (error_object (js "Missing 'prompt' or 'model' in request body.")))
| proxy_relay (data : value) :                        (* line 49 *)
    proxy_reply (res_json data)
| proxy_failure (msg : jsstring) :                    (* line 53 *)
    msg <> [] ->
    proxy_reply (res_status_json 500 (error_object msg)).

(** The message of line 53: the error's own, or a fixed one when the error
    has none. *)
Definition proxy_error_message (e : Error) : jsstring :=
  match message e with
  | [] => js "An unknown error occurred in the proxy."
  | _ :: _ => message e
  end.

(** The delays of [k] failed rounds in a row, for the attempts [i],
    [i + 1], ..., with the draws [n], [n + 1], ... *)
Fixpoint backoff_delays (E : Env) (k i n : nat) : list Q :=
  match k with
  | O => []
  | S k' => backoff_delay i (random E n) :: backoff_delays E k' (S i) (S n)
  end.

(** The text that [fetchOptions] carries for the user: what a reader of the
    payload finds at [contents[0].parts[0].text]. *)
Definition payload_user_text (E : Env) (options : FetchOptions) : Result value :=
  and_then (get E (fo_body options) (js "contents")) (fun contents =>
  and_then (get0 E contents) (fun content =>
  and_then (get E content (js "parts")) (fun parts =>
  and_then (get0 E parts) (prop E (js "text"))))).

Module MoreSamples.

(** An answer that is white space only. *)
Definition blank : Env :=
  Sample.world Sample.secret []
    (Resolved (Sample.success [32%N; 10%N; 9%N])) 0.

(** An answer whose text is the number 42. *)
Definition numeric_answer : Response :=
  mkResponse 200 true (Ok (js "{...}"))
    (Ok (VObj [ (js "candidates",
                  VArr [ VObj [ (js "content",
                                  VObj [ (js "parts",
                                           VArr [ VObj [ (js "text", VNum 42) ] ]) ]) ] ]) ])).

Definition numeric : Env :=
  Sample.world Sample.secret [] (Resolved numeric_answer) 0.

(** Every call is answered 503. *)
Definition down : Env :=
  Sample.world Sample.secret [] (Resolved Sample.unavailable) (1 # 4).

(** Every call breaks, with an error that has no message. *)
Definition silent_error : Error := mkError (js "Error") [].

Definition broken : Env :=
  Sample.world Sample.secret [] (Rejected silent_error) 0.

(** Every call is answered 500, with a body that cannot be read. *)
Definition aborted : Error := mkError (js "AbortError") (js "body stream aborted").

Definition truncated : Env :=
  Sample.world Sample.secret []
    (Resolved (mkResponse 500 false (Throw aborted) (Throw aborted))) 0.

(** An object that cannot be converted to a string, as a position and as
    a model. *)
Definition unprintable : value := VObj [ (js "toString", VNum 0) ].

Definition unprintable_post : Request :=
  mkRequest (js "POST") (Ok (VObj [ (js "fen", unprintable) ])).

Definition unprintable_model : ExpressRequest :=
  mkExpressRequest
    (VObj [ (js "prompt", VStr (js "Best move?")); (js "model", unprintable) ]).

(** A body that is the JSON value null, and one whose position is 0. *)
Definition null_post : Request := mkRequest (js "POST") (Ok VNull).

Definition zero_post : Request :=
  mkRequest (js "POST") (Ok (VObj [ (js "fen", VNum 0) ])).

End MoreSamples.

(* ================================================================= *)
(** * Properties *)

(* ================================================================= *)
(** ** Strings and the sanitization *)

Section StringFacts.

Lemma eqb_eq (a b : jsstring) : eqb a b = true <-> a = b.
Proof.
  revert b. induction a as [|x a IH]; intros [|y b]; simpl;
    try (split; (reflexivity || discriminate)).
  rewrite andb_true_iff, N.eqb_eq, IH. split.
  - intros [-> ->]. reflexivity.
  - intros [= -> ->]. now split.
Qed.

Lemma eqb_refl (a : jsstring) : eqb a a = true.
Proof. now apply eqb_eq. Qed.

Lemma remove_quotes_dots_filter (s : jsstring) :
  remove_quotes_dots s = filter (fun c => negb (is_quote_or_dot c)) s.
Proof.
  induction s as [|c s IH]; simpl; [reflexivity|].
  destruct (is_quote_or_dot c); simpl; now rewrite IH.
Qed.

Lemma remove_quotes_dots_idem (s : jsstring) :
  remove_quotes_dots (remove_quotes_dots s) = remove_quotes_dots s.
Proof.
  induction s as [|c s IH]; simpl; [reflexivity|].
  destruct (is_quote_or_dot c) eqn:Hc; simpl; [assumption|].
  now rewrite Hc, IH.
Qed.

Lemma remove_quotes_dots_no_ws (s : jsstring) :
  Forall no_ws s -> Forall no_ws (remove_quotes_dots s).
Proof.
  induction 1 as [|c s Hc Hs IH]; simpl; [constructor|].
  destruct (is_quote_or_dot c); [assumption | now constructor].
Qed.

Lemma remove_quotes_dots_clean (s : jsstring) :
  Forall (fun c => is_quote_or_dot c = false) (remove_quotes_dots s).
Proof.
  induction s as [|c s IH]; simpl; [constructor|].
  destruct (is_quote_or_dot c) eqn:Hc; [assumption | now constructor].
Qed.

Lemma split_ws_first_no_ws (s : jsstring) : Forall no_ws (split_ws_first s).
Proof.
  induction s as [|c s IH]; simpl; [constructor|].
  destruct (is_ws c) eqn:Hc; now constructor.
Qed.

Lemma split_ws_first_fixed (s : jsstring) :
  Forall no_ws s -> split_ws_first s = s.
Proof.
  induction 1 as [|c s Hc Hs IH]; simpl; [reflexivity|].
  unfold no_ws in Hc. now rewrite Hc, IH.
Qed.

(** The first token is a prefix, and what follows it starts with white
    space. *)
Lemma split_ws_first_prefix (s : jsstring) :
  exists rest,
    s = split_ws_first s ++ rest
    /\ (rest = [] \/ exists c rest', rest = c :: rest' /\ ws c).
Proof.
  induction s as [|c s [rest [Hs Hrest]]]; simpl.
  - exists []. split; [reflexivity | now left].
  - destruct (is_ws c) eqn:Hc.
    + exists (c :: s). split; [reflexivity|]. right. now exists c, s.
    + exists rest. split; [simpl; now rewrite <- Hs | assumption].
Qed.

Lemma drop_ws_fixed (s : jsstring) : Forall no_ws s -> drop_ws s = s.
Proof.
  destruct 1 as [|c s Hc Hs]; simpl; [reflexivity|].
  unfold no_ws in Hc. now rewrite Hc.
Qed.

(** [drop_ws] removes a prefix of white space and stops at the first code
    unit that is not. *)
Lemma drop_ws_suffix (s : jsstring) :
  exists pre,
    s = pre ++ drop_ws s /\ Forall ws pre
    /\ (forall c t, drop_ws s = c :: t -> no_ws c).
Proof.
  induction s as [|c s [pre [Hs [Hpre Hhd]]]]; simpl.
  - exists []. repeat split; [constructor | discriminate].
  - destruct (is_ws c) eqn:Hc.
    + exists (c :: pre). repeat split.
      * simpl. now rewrite <- Hs.
      * now constructor.
      * assumption.
    + exists []. repeat split; [constructor|].
      intros c' t [= <- _]. exact Hc.
Qed.

Lemma trim_fixed (s : jsstring) : Forall no_ws s -> trim s = s.
Proof.
  intros H. unfold trim. rewrite (drop_ws_fixed H).
  rewrite drop_ws_fixed.
  - apply rev_involutive.
  - apply Forall_forall. intros c Hc. apply (proj1 (Forall_forall _ _) H).
    now apply in_rev.
Qed.

(** [trim] removes white space at both ends, and only there. *)
Lemma trim_decompose (s : jsstring) :
  exists pre post,
    s = pre ++ trim s ++ post
    /\ Forall ws pre /\ Forall ws post
    /\ (forall c t, trim s = c :: t -> no_ws c)
    /\ (forall c t, trim s = t ++ [c] -> no_ws c).
Proof.
  destruct (drop_ws_suffix s) as [pre [Hs [Hpre Hhd]]].
  destruct (drop_ws_suffix (rev (drop_ws s))) as [erp [Hr [Herp Hlast]]].
  assert (Hmid : drop_ws s = trim s ++ rev erp).
  { unfold trim. rewrite <- rev_app_distr, <- Hr. now rewrite rev_involutive. }
  exists pre, (rev erp). repeat split.
  - now rewrite <- Hmid.
  - assumption.
  - apply Forall_rev. assumption.
  - intros c t Ht. rewrite Ht in Hmid. simpl in Hmid. now apply (Hhd c _ Hmid).
  - intros c t Ht. unfold trim in Ht.
    apply (f_equal (@rev _)) in Ht.
    rewrite rev_involutive, rev_app_distr in Ht. simpl in Ht.
    now apply (Hlast c _ Ht).
Qed.

Lemma cleanedMove_no_ws (s : jsstring) : Forall no_ws (cleanedMove s).
Proof.
  unfold cleanedMove. apply remove_quotes_dots_no_ws, split_ws_first_no_ws.
Qed.

Lemma cleanedMove_idem (s : jsstring) :
  cleanedMove (cleanedMove s) = cleanedMove s.
Proof.
  unfold cleanedMove at 1.
  rewrite (split_ws_first_fixed (cleanedMove_no_ws s)).
  unfold cleanedMove. apply remove_quotes_dots_idem.
Qed.

End StringFacts.

(** C5.  The sanitization is idempotent: on every string, taking the first
    white-space-delimited token and removing the quote characters and the
    full stops a second time changes nothing; the same holds when the
    trimming of line 113 is counted as part of the step. *)
Theorem sanitize_idempotent (s : jsstring) :
  cleanedMove (cleanedMove s) = cleanedMove s
  /\ sanitize (sanitize s) = sanitize s.
Proof.
  split; [apply cleanedMove_idem|].
  unfold sanitize, rawMove.
  rewrite (trim_fixed (cleanedMove_no_ws (trim s))).
  apply cleanedMove_idem.
Qed.

(** C3, as the code has it.  The sanitization trims the white space around
    the text, keeps what precedes the first white space code unit of the
    trimmed text, and removes from that token every apostrophe, double
    quote, backtick and full stop, wherever it stands (not only a trailing
    full stop); the three sample inputs give Nf6, e4 and Qxg7. *)
Theorem sanitize_characterised (text : jsstring) :
  (exists pre post,
      text = pre ++ rawMove text ++ post
      /\ Forall ws pre /\ Forall ws post
      /\ (forall c t, rawMove text = c :: t -> no_ws c)
      /\ (forall c t, rawMove text = t ++ [c] -> no_ws c))
  /\ (exists rest,
         rawMove text = split_ws_first (rawMove text) ++ rest
         /\ Forall no_ws (split_ws_first (rawMove text))
         /\ (rest = [] \/ exists c rest', rest = c :: rest' /\ ws c))
  /\ sanitize text
     = filter (fun c => negb (is_quote_or_dot c)) (split_ws_first (rawMove text))
  /\ Forall (fun c => is_quote_or_dot c = false) (sanitize text)
  /\ sanitize (js "Nf6" ++ [10%N]) = js "Nf6"
  /\ sanitize (js "'e4'.") = js "e4"
  /\ sanitize (js "Qxg7 (best)") = js "Qxg7".
Proof.
  split; [apply trim_decompose|].
  split.
  { destruct (split_ws_first_prefix (rawMove text)) as [rest [H1 H2]].
    exists rest. repeat split; [assumption | apply split_ws_first_no_ws | assumption]. }
  split; [apply remove_quotes_dots_filter|].
  split; [apply remove_quotes_dots_clean|].
  repeat split; reflexivity.
Qed.

(** C3, refuted as worded.  On the text 1.e4 the code removes the full stop
    in the middle, which the specification's wording (trailing full stops
    only) keeps. *)
Lemma sanitize_inner_dot :
  sanitize (js "1.e4") = js "1e4"
  /\ AsSpecified.sanitize (js "1.e4") = js "1.e4"
  /\ sanitize (js "1.e4") <> AsSpecified.sanitize (js "1.e4").
Proof.
  repeat split; try reflexivity. vm_compute. discriminate.
Qed.


(* ================================================================= *)
(** ** Rounding to a double *)

Unset Implicit Arguments.

Lemma pow2_pos (k : Z) : 0 < pow2 k.
Proof. apply Qpower_0_lt. reflexivity. Qed.

Lemma pow2_add (a b : Z) : pow2 (a + b) == pow2 a * pow2 b.
Proof. apply Qpower_plus. discriminate. Qed.

Lemma pow2_nonneg_integer (k : Z) : (0 <= k)%Z -> pow2 k == inject_Z (2 ^ k).
Proof. intros H. unfold pow2. now rewrite (Zpower_Qpower 2 k H). Qed.

Lemma pow2_cancel (q : Z) : pow2 (- q) * pow2 q == 1.
Proof. rewrite <- pow2_add. now replace (- q + q)%Z with 0%Z by lia. Qed.

Lemma pow2_lt_inv (a b : Z) : pow2 a < pow2 b -> (a < b)%Z.
Proof. intros H. apply (Qpower_lt_compat_l_inv 2 a b H). reflexivity. Qed.

(** [2^(ilog2 x)] does not exceed [x]. *)
Lemma ilog2_le (x : Q) : 0 < x -> pow2 (ilog2 x) <= x.
Proof.
  intros Hx. unfold ilog2.
  set (e0 := (Z.log2 (Qnum x) - Z.log2 (Z.pos (Qden x)))%Z).
  destruct (Qle_bool (pow2 e0) x) eqn:Htest.
  - now apply Qle_bool_iff.
  - destruct x as [n d]. unfold e0. simpl Qnum. simpl Qden. clear e0 Htest.
    assert (Hn : (0 < n)%Z).
    { unfold Qlt in Hx. simpl in Hx. lia. }
    pose proof (Z.log2_spec n Hn) as [Hn1 _].
    pose proof (Z.log2_spec (Z.pos d) (Pos2Z.is_pos d)) as [_ Hd2].
    pose proof (Z.log2_nonneg n) as Ha.
    pose proof (Z.log2_nonneg (Z.pos d)) as Hb.
    remember (Z.log2 n) as a. remember (Z.log2 (Z.pos d)) as b.
    assert (H : pow2 (a - b - 1) * inject_Z (Z.pos d) <= inject_Z n).
    { apply Qle_trans with (pow2 (a - b - 1) * pow2 (Z.succ b)).
      - apply Qmult_le_l; [apply pow2_pos|].
        rewrite (pow2_nonneg_integer (Z.succ b)) by lia.
        rewrite <- Zle_Qle. lia.
      - rewrite <- pow2_add. replace (a - b - 1 + Z.succ b)%Z with a by lia.
        rewrite (pow2_nonneg_integer a) by lia. now rewrite <- Zle_Qle. }
    rewrite (Qmake_Qdiv n d). apply Qle_shift_div_l; [|exact H].
    change 0 with (inject_Z 0). rewrite <- Zlt_Qlt. lia.
Qed.

(** [x] is below [2^(ilog2 x + 1)]: [ilog2] is the integer part of the
    logarithm. *)
Lemma ilog2_lt_succ (x : Q) : 0 < x -> x < pow2 (ilog2 x + 1).
Proof.
  intros Hx. unfold ilog2.
  set (e0 := (Z.log2 (Qnum x) - Z.log2 (Z.pos (Qden x)))%Z).
  destruct (Qle_bool (pow2 e0) x) eqn:Htest.
  - destruct x as [n d]. unfold e0. simpl Qnum. simpl Qden. clear e0 Htest.
    assert (Hn : (0 < n)%Z).
    { unfold Qlt in Hx. simpl in Hx. lia. }
    pose proof (Z.log2_spec n Hn) as [_ Hn2].
    pose proof (Z.log2_spec (Z.pos d) (Pos2Z.is_pos d)) as [Hd1 _].
    pose proof (Z.log2_nonneg n) as Ha.
    pose proof (Z.log2_nonneg (Z.pos d)) as Hb.
    remember (Z.log2 n) as a. remember (Z.log2 (Z.pos d)) as b.
    assert (H : inject_Z n < pow2 (a - b + 1) * inject_Z (Z.pos d)).
    { apply Qlt_le_trans with (pow2 (a - b + 1) * pow2 b).
      - rewrite <- pow2_add. replace (a - b + 1 + b)%Z with (Z.succ a) by lia.
        rewrite (pow2_nonneg_integer (Z.succ a)) by lia. now rewrite <- Zlt_Qlt.
      - apply Qmult_le_l; [apply pow2_pos|].
        rewrite (pow2_nonneg_integer b) by lia. now rewrite <- Zle_Qle. }
    rewrite (Qmake_Qdiv n d). apply Qlt_shift_div_r; [|exact H].
    change 0 with (inject_Z 0). rewrite <- Zlt_Qlt. lia.
  - replace (e0 - 1 + 1)%Z with e0 by lia.
    apply Qnot_le_lt. intros H. apply Qle_bool_iff in H. congruence.
Qed.

Lemma ilog2_lt (x : Q) (k : Z) : 0 < x -> x < pow2 k -> (ilog2 x < k)%Z.
Proof.
  intros Hx Hk. apply pow2_lt_inv.
  apply Qle_lt_trans with x; [now apply ilog2_le | exact Hk].
Qed.

Lemma RNE_floor (x : Q) : (Qfloor x <= RNE x <= Qfloor x + 1)%Z.
Proof.
  unfold RNE. destruct (Qcompare (x - inject_Z (Qfloor x)) (1 # 2));
    [destruct (Z.even (Qfloor x))| |]; lia.
Qed.

Lemma RNE_ge (x : Q) (z : Z) : inject_Z z <= x -> (z <= RNE x)%Z.
Proof.
  intros H. pose proof (Qfloor_resp_le _ _ H) as Hf. rewrite Qfloor_Z in Hf.
  pose proof (RNE_floor x). lia.
Qed.

Lemma RNE_le (x : Q) (z : Z) : x <= inject_Z z -> (RNE x <= z)%Z.
Proof.
  intros H. pose proof (Qfloor_le x) as Hf.
  assert (Hfz : (Qfloor x <= z)%Z).
  { rewrite Zle_Qle. now apply Qle_trans with x. }
  unfold RNE.
  destruct (Qcompare_spec (x - inject_Z (Qfloor x)) (1 # 2)) as [Hc|Hc|Hc];
    [ | exact Hfz | ];
    assert (Hlt : (Qfloor x < z)%Z)
      by (rewrite Zlt_Qlt; apply Qlt_le_trans with x; [lra | exact H]).
  - destruct (Z.even (Qfloor x)); lia.
  - lia.
Qed.

Lemma round64_pos (x : Q) : 0 < x -> round64 x == round_pos x.
Proof.
  intros H. unfold round64.
  destruct (Qcompare_spec x 0) as [Hc|Hc|Hc]; [lra | lra | apply Qred_correct].
Qed.

(** Rounding does not cross an integer, below [2^53]. *)
Lemma round64_between (x : Q) (m M : Z) :
  0 <= x -> x < inject_Z (2 ^ 53) ->
  inject_Z m <= x -> x <= inject_Z M ->
  inject_Z m <= round64 x /\ round64 x <= inject_Z M.
Proof.
  intros H0 H53 Hm HM.
  destruct (Qcompare_spec x 0) as [Hc|Hc|Hc]; [ |lra| ].
  - assert (Hr : round64 x == 0).
    { unfold round64. destruct (Qcompare_spec x 0); (reflexivity || lra). }
    rewrite Hr. lra.
  - rewrite (round64_pos x Hc). unfold round_pos.
    assert (Hq : (quantum x <= 0)%Z).
    { unfold quantum. 
      assert (ilog2 x < 53)%Z.
      { apply ilog2_lt; [exact Hc|].
        rewrite (pow2_nonneg_integer 53); [exact H53 | lia]. }
      lia. }
    set (q := quantum x) in *.
    pose proof (pow2_pos q) as Hpq. pose proof (pow2_pos (- q)) as Hpnq.
    pose proof (pow2_cancel q) as Hcancel.
    assert (HK : pow2 (- q) == inject_Z (2 ^ (- q))) by (apply pow2_nonneg_integer; lia).
    assert (Hlo : (m * 2 ^ (- q) <= RNE (x * pow2 (- q)))%Z).
    { apply RNE_ge. rewrite inject_Z_mult, <- HK. now apply Qmult_le_compat_r; [|apply Qlt_le_weak]. }
    assert (Hhi : (RNE (x * pow2 (- q)) <= M * 2 ^ (- q))%Z).
    { apply RNE_le. rewrite inject_Z_mult, <- HK. now apply Qmult_le_compat_r; [|apply Qlt_le_weak]. }
    rewrite Zle_Qle, inject_Z_mult, <- HK in Hlo, Hhi.
    set (R := inject_Z (RNE (x * pow2 (- q)))) in *.
    split.
    + apply Qle_trans with (inject_Z m * pow2 (- q) * pow2 q).
      * rewrite <- Qmult_assoc, Hcancel. lra.
      * apply Qmult_le_compat_r; [exact Hlo | now apply Qlt_le_weak].
    + apply Qle_trans with (inject_Z M * pow2 (- q) * pow2 q).
      * apply Qmult_le_compat_r; [exact Hhi | now apply Qlt_le_weak].
      * rewrite <- Qmult_assoc, Hcancel. lra.
Qed.

Set Implicit Arguments.
(* ================================================================= *)
(** ** Traces *)

Lemma fetch_count_app (tr tr' : Trace) :
  fetch_count (tr ++ tr') = (fetch_count tr + fetch_count tr')%nat.
Proof. unfold fetch_count. now rewrite filter_app, length_app. Qed.

Lemma random_count_app (tr tr' : Trace) :
  random_count (tr ++ tr') = (random_count tr + random_count tr')%nat.
Proof. unfold random_count. now rewrite filter_app, length_app. Qed.

Lemma sleeps_app (tr tr' : Trace) : sleeps (tr ++ tr') = sleeps tr ++ sleeps tr'.
Proof.
  induction tr as [|e tr IH]; simpl; [reflexivity|].
  destruct e; simpl; now rewrite IH.
Qed.

Lemma fetch_count_failed_rounds E url options k i n :
  fetch_count (failed_rounds E url options k i n) = k.
Proof.
  revert i n. induction k as [|k IH]; intros i n; simpl; [reflexivity|].
  change (S (fetch_count (failed_rounds E url options k (S i) (S n))) = S k).
  now rewrite IH.
Qed.

Lemma random_count_failed_rounds E url options k i n :
  random_count (failed_rounds E url options k i n) = k.
Proof.
  revert i n. induction k as [|k IH]; intros i n; simpl; [reflexivity|].
  change (S (random_count (failed_rounds E url options k (S i) (S n))) = S k).
  now rewrite IH.
Qed.

(* ================================================================= *)
(** ** The retry loop *)

Section RetryLoop.

Variable E : Env.
Variables (url : jsstring) (options : FetchOptions).

(** One attempt, by the outcome of its call. *)
Lemma attempt_run (tr : Trace) :
  attempt E url options tr
  = (match upstream E (fetch_count tr) with
     | Resolved r =>
         if fails (Resolved r) then Throw (failure (Resolved r)) else Ok r
     | Rejected e => Throw e
     end,
     tr ++ [EvFetch url options]).
Proof.
  unfold attempt, bind, fetch, fails, failure.
  destruct (upstream E (fetch_count tr)) as [e|r]; [reflexivity|].
  destruct (status r =? 429)%N; simpl; [reflexivity|].
  destruct (ok r); simpl; [reflexivity|].
  unfold await, throw. destruct (text r); reflexivity.
Qed.

Lemma attempt_fails (tr : Trace) :
  fails (upstream E (fetch_count tr)) = true ->
  attempt E url options tr
  = (Throw (failure (upstream E (fetch_count tr))), tr ++ [EvFetch url options]).
Proof.
  intros H. rewrite attempt_run.
  destruct (upstream E (fetch_count tr)) as [e|r]; [reflexivity|].
  now rewrite H.
Qed.

Lemma attempt_succeeds (tr : Trace) (r : Response) :
  upstream E (fetch_count tr) = Resolved r ->
  fails (Resolved r) = false ->
  attempt E url options tr = (Ok r, tr ++ [EvFetch url options]).
Proof. intros H Hr. rewrite attempt_run, H. now rewrite Hr. Qed.

(** What an attempt returns is a success response. *)
Lemma attempt_returns (tr tr' : Trace) (r : Response) :
  attempt E url options tr = (Ok r, tr') ->
  upstream E (fetch_count tr) = Resolved r /\ fails (Resolved r) = false.
Proof.
  rewrite attempt_run.
  destruct (upstream E (fetch_count tr)) as [e|r0]; [discriminate|].
  destruct (fails (Resolved r0)) eqn:Hf; [discriminate|].
  intros [= -> _]. now split.
Qed.

(** [k] failed attempts, none of them the last one allowed, unfold the
    loop [k] times. *)
Lemma retry_loop_failed_rounds maxRetries k :
  forall remaining i tr,
    (k < remaining)%nat ->
    (i + remaining = maxRetries)%nat ->
    (forall j, (j < k)%nat -> fails (upstream E (fetch_count tr + j)) = true) ->
    retry_loop E url options maxRetries remaining i tr
    = retry_loop E url options maxRetries (remaining - k) (i + k)
        (tr ++ failed_rounds E url options k i (random_count tr)).
Proof.
  induction k as [|k IH]; intros remaining i tr Hk Hi Hfail.
  - simpl. now rewrite Nat.sub_0_r, Nat.add_0_r, app_nil_r.
  - destruct remaining as [|remaining]; [lia|].
    simpl retry_loop at 1. unfold try_catch, bind at 1.
    rewrite attempt_fails
      by (rewrite <- (Nat.add_0_r (fetch_count tr)); apply Hfail; lia).
    replace (i =? maxRetries - 1)%nat with false
      by (symmetry; apply Nat.eqb_neq; lia).
    unfold bind, Math_random, console, sleep, emit.
    rewrite IH; [ | lia | lia | ].
    + replace (S remaining - S k)%nat with (remaining - k)%nat by lia.
      replace (S i + k)%nat with (i + S k)%nat by lia.
      f_equal. rewrite !random_count_app.
      change (random_count [EvFetch url options]) with 0%nat.
      change (random_count [EvRandom]) with 1%nat.
      change (random_count [EvConsole Warn]) with 0%nat.
      change (random_count [EvSleep ?d]) with 0%nat.
      rewrite !Nat.add_0_r, Nat.add_1_r, <- !app_assoc.
      reflexivity.
    + intros j Hj. rewrite !fetch_count_app.
      change (fetch_count [EvFetch url options]) with 1%nat.
      change (fetch_count [EvRandom]) with 0%nat.
      change (fetch_count [EvConsole Warn]) with 0%nat.
      change (fetch_count [EvSleep ?d]) with 0%nat.
      replace (fetch_count tr + 1 + 0 + 0 + 0 + j)%nat
        with (fetch_count tr + S j)%nat by lia.
      apply Hfail. lia.
Qed.

(** After [k < maxRetries] failures, a success is returned at once. *)
Lemma fetchWithRetry_succeeds maxRetries k tr r :
  (k < maxRetries)%nat ->
  (forall j, (j < k)%nat -> fails (upstream E (fetch_count tr + j)) = true) ->
  upstream E (fetch_count tr + k) = Resolved r ->
  fails (Resolved r) = false ->
  fetchWithRetry E url options maxRetries tr
  = (Ok (Some r),
     tr ++ failed_rounds E url options k 0 (random_count tr)
        ++ [EvFetch url options]).
Proof.
  intros Hk Hfail Hr Hok. unfold fetchWithRetry.
  rewrite (@retry_loop_failed_rounds maxRetries k) by (assumption || lia).
  destruct (maxRetries - k)%nat as [|remaining] eqn:Hrem; [lia|].
  simpl. unfold try_catch, bind.
  rewrite (@attempt_succeeds _ r).
  - unfold ret. now rewrite <- app_assoc.
  - now rewrite fetch_count_app, fetch_count_failed_rounds.
  - assumption.
Qed.

(** After [maxRetries] failures, the error of the last one is thrown. *)
Lemma fetchWithRetry_exhausted maxRetries tr :
  (0 < maxRetries)%nat ->
  (forall j, (j < maxRetries)%nat ->
             fails (upstream E (fetch_count tr + j)) = true) ->
  fetchWithRetry E url options maxRetries tr
  = (Throw (failure (upstream E (fetch_count tr + (maxRetries - 1)))),
     tr ++ failed_rounds E url options (maxRetries - 1) 0 (random_count tr)
        ++ [EvFetch url options]).
Proof.
  intros Hpos Hfail. unfold fetchWithRetry.
  rewrite (@retry_loop_failed_rounds maxRetries (maxRetries - 1))
    by (try lia; intros j Hj; apply Hfail; lia).
  replace (maxRetries - (maxRetries - 1))%nat with 1%nat by lia.
  simpl. unfold try_catch, bind.
  rewrite attempt_fails.
  - rewrite Nat.eqb_refl. unfold throw.
    now rewrite fetch_count_app, fetch_count_failed_rounds, <- app_assoc.
  - rewrite fetch_count_app, fetch_count_failed_rounds. apply Hfail. lia.
Qed.

(** Whatever the loop returns, while iterations remain, is a success
    response. *)
Lemma retry_loop_returns maxRetries :
  forall remaining i tr o tr',
    (0 < remaining)%nat ->
    (i + remaining = maxRetries)%nat ->
    retry_loop E url options maxRetries remaining i tr = (Ok o, tr') ->
    exists r, o = Some r /\ fails (Resolved r) = false.
Proof.
  induction remaining as [|remaining IH]; intros i tr o tr' Hpos Hi; [lia|].
  simpl. unfold try_catch, bind at 1.
  destruct (attempt E url options tr) as [[r|e] tr1] eqn:Ha.
  - unfold ret. intros [= <- _]. exists r. split; [reflexivity|].
    now apply attempt_returns in Ha.
  - destruct (i =? maxRetries - 1)%nat eqn:Hlast; [discriminate|].
    apply Nat.eqb_neq in Hlast.
    unfold bind, Math_random, console, sleep, emit.
    apply IH; lia.
Qed.

(** The calls of the loop: at least one, at most one per iteration, all
    of them to [url] with [options]. *)
Lemma retry_loop_calls maxRetries :
  forall remaining i tr,
  exists res evs,
    retry_loop E url options maxRetries remaining i tr = (res, tr ++ evs)
    /\ (fetch_count evs <= remaining)%nat
    /\ ((0 < remaining)%nat -> (1 <= fetch_count evs)%nat)
    /\ (forall u o, In (EvFetch u o) evs -> u = url /\ o = options).
Proof.
  induction remaining as [|remaining IH]; intros i tr.
  - exists (Ok None), []. simpl. unfold ret. rewrite app_nil_r.
    split; [reflexivity|]. split; [exact (le_n 0)|].
    split; [lia | intros u o []].
  - simpl. unfold try_catch, bind at 1. rewrite attempt_run.
    assert (Hone : forall u o,
               In (EvFetch u o) [EvFetch url options] -> u = url /\ o = options).
    { intros u o [[= <- <-]|[]]. now split. }
    set (x := match upstream E (fetch_count tr) with
              | Rejected e => Throw e
              | Resolved r =>
                  if fails (Resolved r) then Throw (failure (Resolved r)) else Ok r
              end).
    destruct x as [r|e].
    + exists (Ok (Some r)), [EvFetch url options].
      change (fetch_count [EvFetch url options]) with 1%nat.
      split; [reflexivity|]. split; [lia|]. split; [lia | exact Hone].
    + destruct (i =? maxRetries - 1)%nat.
      * exists (Throw e), [EvFetch url options].
        change (fetch_count [EvFetch url options]) with 1%nat.
        split; [reflexivity|]. split; [lia|]. split; [lia | exact Hone].
      * unfold bind, Math_random, console, sleep, emit.
        match goal with
        | |- context [retry_loop _ _ _ _ _ _ ?t] =>
            destruct (IH (S i) t) as [res [evs [Hrun [Hle [_ Hall]]]]]
        end.
        exists res.
        exists (failed_round url options i
                  (random E (random_count (tr ++ [EvFetch url options])))
                ++ evs).
        rewrite Hrun. unfold failed_round. rewrite <- !app_assoc. simpl.
        split; [reflexivity|].
        change (fetch_count (EvFetch url options :: EvRandom :: EvConsole Warn
                             :: EvSleep ?d :: evs))
          with (S (fetch_count evs)).
        split; [lia|]. split; [lia|].
        intros u o [[= <- <-]|[H|[H|[H|H]]]]; try discriminate.
        -- now split.
        -- now apply Hall.
Qed.

End RetryLoop.

(* ================================================================= *)
(** ** Computations that do not look at the trace *)

Lemma quiet_ret {A} (a : A) : quiet (ret a).
Proof. exists (Ok a), []. intros tr. unfold ret. simpl. now rewrite app_nil_r. Qed.

Lemma quiet_throw {A} (e : Error) : quiet (@throw A e).
Proof. exists (Throw e), []. intros tr. unfold throw. simpl. now rewrite app_nil_r. Qed.

Lemma quiet_await {A} (r : Result A) : quiet (await r).
Proof. exists r, []. intros tr. unfold await. simpl. now rewrite app_nil_r. Qed.

Lemma quiet_console (level : ConsoleLevel) : quiet (console level).
Proof. exists (Ok tt), [level]. intros tr. reflexivity. Qed.

Lemma quiet_bind {A B} (m : M A) (k : A -> M B) :
  quiet m -> (forall a, quiet (k a)) -> quiet (bind m k).
Proof.
  intros [[a|e] [lv Hm]] Hk.
  - destruct (Hk a) as [res [lv' Hka]].
    exists res, (lv ++ lv'). intros tr. unfold bind.
    now rewrite Hm, Hka, map_app, app_assoc.
  - exists (Throw e), lv. intros tr. unfold bind. now rewrite Hm.
Qed.

Lemma quiet_try_catch {A} (m : M A) (h : Error -> M A) :
  quiet m -> (forall e, quiet (h e)) -> quiet (try_catch m h).
Proof.
  intros [[a|e] [lv Hm]] Hh.
  - exists (Ok a), lv. intros tr. unfold try_catch. now rewrite Hm.
  - destruct (Hh e) as [res [lv' Hhe]].
    exists res, (lv ++ lv'). intros tr. unfold try_catch.
    now rewrite Hm, Hhe, map_app, app_assoc.
Qed.

Create HintDb quiet.
#[local] Hint Resolve quiet_ret quiet_throw quiet_await quiet_console : quiet.

Lemma quiet_unwrap_response E (fen : value) (apiResponse : option Response) :
  quiet (unwrap_response E fen apiResponse).
Proof.
  unfold unwrap_response.
  apply quiet_bind; [destruct apiResponse; auto with quiet|].
  intros result. apply quiet_bind; [auto with quiet|].
  intros candidate. apply quiet_bind.
  { destruct (negb (truthy candidate)); [auto with quiet|].
    apply quiet_bind; auto with quiet. }
  intros [|].
  - apply quiet_bind; [auto with quiet|]. intros m.
    apply quiet_bind; [auto with quiet|]. intros _.
    apply quiet_bind; auto with quiet.
  - apply quiet_bind; [auto with quiet|]. intros t.
    apply quiet_bind; [auto with quiet|]. intros raw.
    apply quiet_bind; [auto with quiet|]. intros _.
    apply quiet_bind; auto with quiet.
Qed.

(** The reply to an upstream response, and the events of computing it. *)
Lemma quiet_reply E (fen : value) (apiResponse : option Response) :
  quiet
    (try_catch (unwrap_response E fen apiResponse)
       (fun error => console Err ;;; ret (communication_failure (message error)))).
Proof.
  apply quiet_try_catch; [apply quiet_unwrap_response|].
  intros e. apply quiet_bind; auto with quiet.
Qed.

Lemma quiet_result {A} (m : M A) (tr tr' : Trace) :
  quiet m -> fst (m tr) = fst (m tr').
Proof. intros [res [lv H]]. now rewrite (H tr), (H tr'). Qed.

Lemma fetch_count_console (levels : list ConsoleLevel) :
  fetch_count (List.map EvConsole levels) = 0%nat.
Proof. induction levels as [|l levels IH]; [reflexivity | exact IH]. Qed.

(* ================================================================= *)
(** ** The handler *)

Section Handler.

Variable E : Env.

Lemma method_POST_not_OPTIONS : eqb (js "POST") (js "OPTIONS") = false.
Proof. reflexivity. Qed.

(** With a configured key, line 81 builds the URL of the request. *)
Lemma apiUrl_configured :
  configured E = true ->
  apiUrl E (env_value (GEMINI_API_KEY E)) = Ok (request_url E).
Proof.
  unfold configured, apiUrl, request_url, the_key.
  destruct (GEMINI_API_KEY E); simpl; [reflexivity | discriminate].
Qed.

(** An accepted request whose position converts to a string goes to the
    upstream. *)
Lemma handler_accepted (request : Request) (fen : value) (fen_text : jsstring)
    (tr : Trace) :
  accepted E request fen ->
  ToString E fen = Ok fen_text ->
  handler E request tr
  = call_gemini E (request_url E)
      (payload
         (js "Analyze the current board state provided by this FEN string and give the single best move: "
          ++ fen_text))
      fen tr.
Proof.
  intros [Hm [Hkey [Hfen Ht]]] Hs. unfold handler.
  rewrite Hm, method_POST_not_OPTIONS, eqb_refl.
  fold (configured E). rewrite Hkey, Hfen, Ht. cbn [negb].
  unfold bind at 1, await at 1, userPrompt. rewrite Hs. cbn [and_then].
  unfold bind at 1, await at 1. now rewrite (apiUrl_configured Hkey).
Qed.

(** An accepted request whose position does not convert makes the handler
    throw at line 79, before anything is done. *)
Lemma handler_rejects (request : Request) (fen : value) (e : Error)
    (tr : Trace) :
  accepted E request fen ->
  ToString E fen = Throw e ->
  handler E request tr = (Throw e, tr).
Proof.
  intros [Hm [Hkey [Hfen Ht]]] Hs. unfold handler.
  rewrite Hm, method_POST_not_OPTIONS, eqb_refl.
  fold (configured E). rewrite Hkey, Hfen, Ht. cbn [negb].
  unfold bind at 1, await at 1, userPrompt. now rewrite Hs.
Qed.

(** The reply, once [fetchWithRetry] has returned. *)
Lemma call_gemini_returned url pl fen tr tr' (o : option Response) :
  fetchWithRetry E url (fetchOptions pl) default_maxRetries tr = (Ok o, tr') ->
  call_gemini E url pl fen tr
  = try_catch (unwrap_response E fen o)
      (fun error => console Err ;;; ret (communication_failure (message error)))
      tr'.
Proof.
  intros H. unfold call_gemini, try_catch, bind at 1. now rewrite H.
Qed.

(** The reply, once [fetchWithRetry] has thrown. *)
Lemma call_gemini_thrown url pl fen tr tr' (e : Error) :
  fetchWithRetry E url (fetchOptions pl) default_maxRetries tr = (Throw e, tr') ->
  call_gemini E url pl fen tr
  = (Ok (communication_failure (message e)), tr' ++ [EvConsole Err]).
Proof.
  intros H. unfold call_gemini, try_catch, bind at 1. now rewrite H.
Qed.

(** A request that is not accepted is answered without any outbound
    call, and without a look at the upstream. *)
Lemma handler_not_accepted (request : Request) (tr : Trace) :
  (forall fen, ~ accepted E request fen) ->
  exists reply evs,
    handler E request tr = (Ok reply, tr ++ evs)
    /\ fetch_count evs = 0%nat
    /\ forall u, handler (with_upstream E u) request tr = (Ok reply, tr ++ evs).
Proof.
  intros Hno. unfold handler.
  destruct (eqb (method request) (js "OPTIONS")) eqn:Hopt.
  { exists (status_end 200), []. rewrite app_nil_r. now repeat split. }
  destruct (eqb (method request) (js "POST")) eqn:Hpost; simpl.
  2:{ eexists; exists []. rewrite app_nil_r. now repeat split. }
  destruct (truthy (env_value (GEMINI_API_KEY E))) eqn:Hkey; simpl.
  2:{ eexists; exists [EvConsole Err]. now repeat split. }
  destruct (and_then (body request) (prop E (js "fen"))) as [fen|e] eqn:Hfen.
  2:{ eexists; exists []. rewrite app_nil_r. repeat split.
      intros u.
      change (prop (with_upstream E u)) with (prop E) in *.
      now rewrite Hfen. }
  destruct (truthy fen) eqn:Ht; simpl.
  { exfalso. apply (Hno fen). apply eqb_eq in Hpost. now repeat split. }
  eexists; exists []. rewrite app_nil_r. repeat split.
  intros u. change (prop (with_upstream E u)) with (prop E) in *.
  now rewrite Hfen, Ht.
Qed.

End Handler.

Lemma accepted_dec (E : Env) (request : Request) :
  (exists fen, accepted E request fen) \/ (forall fen, ~ accepted E request fen).
Proof.
  unfold accepted.
  destruct (eqb (method request) (js "POST")) eqn:Hm.
  2:{ right. intros fen [H _]. apply eqb_eq in H. congruence. }
  apply eqb_eq in Hm.
  destruct (configured E) eqn:Hk.
  2:{ right. intros fen [_ [H _]]. discriminate. }
  destruct (and_then (body request) (prop E (js "fen"))) as [fen|e] eqn:Hf.
  2:{ right. intros fen [_ [_ [H _]]]. discriminate. }
  destruct (truthy fen) eqn:Ht.
  - left. exists fen. now repeat split.
  - right. intros fen' [_ [_ [[= <-] H]]]. congruence.
Qed.

Lemma accepted_unique (E : Env) (request : Request) (fen fen' : value) :
  accepted E request fen -> accepted E request fen' -> fen = fen'.
Proof. intros [_ [_ [H _]]] [_ [_ [H' _]]]. congruence. Qed.

Lemma accepted_with_upstream (E : Env) u (request : Request) (fen : value) :
  accepted E request fen -> accepted (with_upstream E u) request fen.
Proof. intros H. exact H. Qed.

Lemma ToString_with_upstream (E : Env) u (v : value) :
  ToString (with_upstream E u) v = ToString E v.
Proof. reflexivity. Qed.

(** The reply to an accepted request whose [fetchWithRetry] returns [o] is
    the reply computed from [o] alone. *)
Lemma handler_reply_returned (E : Env) request fen fen_text tr tr' o :
  accepted E request fen ->
  ToString E fen = Ok fen_text ->
  fetchWithRetry E (request_url E) (request_options fen_text)
    default_maxRetries tr = (Ok o, tr') ->
  fst (handler E request tr)
  = fst (try_catch (unwrap_response E fen o)
           (fun error => console Err ;;; ret (communication_failure (message error)))
           []).
Proof.
  intros Ha Hs Hf.
  rewrite (@handler_accepted E request fen fen_text tr Ha Hs).
  erewrite call_gemini_returned by exact Hf.
  apply quiet_result, quiet_reply.
Qed.

(** The same, once [fetchWithRetry] has thrown. *)
Lemma handler_reply_thrown (E : Env) request fen fen_text tr tr' e :
  accepted E request fen ->
  ToString E fen = Ok fen_text ->
  fetchWithRetry E (request_url E) (request_options fen_text)
    default_maxRetries tr = (Throw e, tr') ->
  handler E request tr
  = (Ok (communication_failure (message e)), tr' ++ [EvConsole Err]).
Proof.
  intros Ha Hs Hf.
  rewrite (@handler_accepted E request fen fen_text tr Ha Hs).
  now erewrite call_gemini_thrown by exact Hf.
Qed.
(* ================================================================= *)
(** ** Reading the upstream body *)

Section UpstreamBody.

Variable E : Env.

Lemma get_defined (base : value) (p : jsstring) :
  nullish base = false -> exists v, get E base p = Ok v.
Proof. destruct base; simpl; intros H; try discriminate; eauto. Qed.

Lemma get0_defined (base : value) :
  nullish base = false -> exists v, get0 E base = Ok v.
Proof. destruct base; simpl; intros H; try discriminate; eauto. Qed.

Lemma truthy_not_nullish (v : value) : truthy v = true -> nullish v = false.
Proof. destruct v; simpl; congruence. Qed.


(** Where the optional chain finds a truthy text, the plain chain of line
    113 finds the same. *)
Lemma strict_text_of_optional (candidate t : value) :
  optional_text E candidate = Ok t -> truthy t = true ->
  strict_text E candidate = Ok t.
Proof.
  unfold optional_text, strict_text, optional, prop.
  destruct (get E candidate (js "content")) as [content|e]; simpl; [|discriminate].
  destruct (nullish content) eqn:H1.
  { intros [= <-]. discriminate. }
  destruct (get E content (js "parts")) as [parts|e]; simpl; [|discriminate].
  destruct (nullish parts) eqn:H2.
  { intros [= <-]. discriminate. }
  destruct (get0 E parts) as [part|e]; simpl; [|discriminate].
  destruct (nullish part) eqn:H3.
  { intros [= <-]. discriminate. }
  now intros ->.
Qed.

Lemma first_candidate_defined (result : value) :
  nullish result = false -> exists c, first_candidate E result = Ok c.
Proof.
  intros H. unfold first_candidate, optional.
  destruct (@get_defined result (js "candidates") H) as [cs ->]. simpl.
  destruct (nullish cs) eqn:Hcs; [eauto|]. apply (@get0_defined cs Hcs).
Qed.



(** The test of line 105 is the test that the expected field is falsy. *)
Lemma unusable_test (result candidate t : value) (tr : Trace) :
  first_candidate E result = Ok candidate ->
  result_text E result = Ok t ->
  (if negb (truthy candidate) then ret true
   else t' <- await (optional_text E candidate) ;; ret (negb (truthy t'))) tr
  = (Ok (negb (truthy t)), tr)
  /\ (truthy t = true -> optional_text E candidate = Ok t).
Proof.
  intros Hc. unfold result_text. rewrite Hc. simpl. unfold optional.
  destruct (nullish candidate) eqn:Hn.
  - intros [= <-]. destruct candidate; try discriminate; now split.
  - intros Ht. split; [|now intros _].
    destruct (truthy candidate) eqn:Htc; simpl.
    + unfold bind, await, ret. now rewrite Ht.
    + destruct candidate; try discriminate; simpl in *.
      * injection Ht as <-. reflexivity.
      * injection Ht as <-. reflexivity.
      * destruct s; [|discriminate]. injection Ht as <-. reflexivity.
Qed.


(** Lines 113-121: a body with the expected field, a string. *)
Lemma unwrap_usable (fen : value) (fen_text : jsstring) (r : Response)
    (result : value) (t : jsstring) (tr : Trace) :
  ToString E fen = Ok fen_text ->
  json r = Ok result ->
  result_text E result = Ok (VStr t) -> t <> [] ->
  unwrap_response E fen (Some r) tr
  = (Ok (status_json 200 (VObj [ (js "move", VStr (sanitize t)) ])),
     tr ++ [EvConsole Log]).
Proof.
  intros Hs Hj Ht Hne.
  assert (Htr : truthy (VStr t) = true) by (destruct t; [congruence|reflexivity]).
  assert (Hnn : nullish result = false).
  { destruct result; try reflexivity; discriminate. }
  destruct (@first_candidate_defined result Hnn) as [c Hc].
  destruct (@unusable_test result c _ tr Hc Ht) as [Hu Ho].
  unfold unwrap_response. unfold bind at 1, await at 1. rewrite Hj.
  unfold bind at 1, await at 1. rewrite Hc.
  unfold bind at 1. rewrite Hu, Htr. simpl negb. cbv iota.
  unfold bind at 1, await at 1.
  rewrite (@strict_text_of_optional c _ (Ho Htr) Htr).
  unfold bind at 1, await at 1. cbn [call_trim].
  unfold bind at 1, await at 1. rewrite Hs.
  reflexivity.
Qed.

(** Line 113 on a text that is truthy and is not a string. *)
Lemma unwrap_not_a_string (fen : value) (r : Response) (result t : value)
    (tr : Trace) :
  json r = Ok result ->
  result_text E result = Ok t -> truthy t = true ->
  (forall s, t <> VStr s) ->
  unwrap_response E fen (Some r) tr
  = (Throw (TypeError E (NotAFunction (js "trim"))), tr).
Proof.
  intros Hj Ht Htr Hns.
  assert (Hnn : nullish result = false).
  { destruct result; try reflexivity; discriminate. }
  destruct (@first_candidate_defined result Hnn) as [c Hc].
  destruct (@unusable_test result c t tr Hc Ht) as [Hu Ho].
  unfold unwrap_response. unfold bind at 1, await at 1. rewrite Hj.
  unfold bind at 1, await at 1. rewrite Hc.
  unfold bind at 1. rewrite Hu, Htr. simpl negb. cbv iota.
  unfold bind at 1, await at 1.
  rewrite (@strict_text_of_optional c t (Ho Htr) Htr).
  unfold bind at 1, await at 1.
  destruct t; try discriminate Htr; try reflexivity.
  exfalso. now apply (Hns s).
Qed.


End UpstreamBody.

(** After [k] failures and a success, [fetchWithRetry] returns the
    success, having made [k + 1] calls. *)
Lemma fetchWithRetry_succeeds_after (E : Env) (url : jsstring)
    (options : FetchOptions) (tr : Trace) (k : nat) (r : Response) :
  succeeds_after E tr k r ->
  fetchWithRetry E url options default_maxRetries tr
  = (Ok (Some r),
     tr ++ failed_rounds E url options k 0 (random_count tr)
        ++ [EvFetch url options])
  /\ fetch_count (tr ++ failed_rounds E url options k 0 (random_count tr)
                     ++ [EvFetch url options])
     = (fetch_count tr + k + 1)%nat.
Proof.
  intros [Hk [Hfail [Hr Hok]]]. split.
  - now apply fetchWithRetry_succeeds.
  - rewrite !fetch_count_app, fetch_count_failed_rounds.
    change (fetch_count [EvFetch url options]) with 1%nat. lia.
Qed.

(** After five failures, [fetchWithRetry] throws the error of the fifth,
    having made five calls. *)
Lemma fetchWithRetry_gives_up (E : Env) (url : jsstring)
    (options : FetchOptions) (tr : Trace) :
  (forall j, (j < 5)%nat -> fails (upstream E (fetch_count tr + j)) = true) ->
  fetchWithRetry E url options default_maxRetries tr
  = (Throw (failure (upstream E (fetch_count tr + 4))),
     tr ++ failed_rounds E url options 4 0 (random_count tr)
        ++ [EvFetch url options]).
Proof.
  intros Hfail.
  apply (@fetchWithRetry_exhausted E url options default_maxRetries tr);
    unfold default_maxRetries; [lia | assumption].
Qed.

(* ================================================================= *)
(** ** Retries that end well *)

(** C1.  If the first [k] attempts fail ([0 < k < 5]: the transport throws,
    the status is 429, or the status is not a success status) and the next
    attempt succeeds with the response [r], then [fetchWithRetry] returns
    [r], after [k + 1] calls; the reply of the handler, to any request, is
    the one it would give if the upstream had answered [r] at once; and for
    an accepted request, when the body of [r] holds the text [t], that
    reply is the 200 that carries the move cleaned from [t]. *)
Theorem retry_is_transparent (E : Env) (url : jsstring) (options : FetchOptions)
    (tr : Trace) (k : nat) (r : Response) :
  (0 < k < 5)%nat ->
  (forall j, (j < k)%nat -> fails (upstream E (fetch_count tr + j)) = true) ->
  upstream E (fetch_count tr + k) = Resolved r ->
  fails (Resolved r) = false ->
  fst (fetchWithRetry E url options default_maxRetries tr) = Ok (Some r)
  /\ fetch_count (snd (fetchWithRetry E url options default_maxRetries tr))
     = (fetch_count tr + k + 1)%nat
  /\ (forall request,
        fst (handler E request tr)
        = fst (handler (with_upstream E (fun _ => Resolved r)) request tr))
  /\ (forall request fen fen_text result t,
        accepted E request fen -> ToString E fen = Ok fen_text ->
        json r = Ok result -> result_text E result = Ok (VStr t) -> t <> [] ->
        fst (handler E request tr)
        = Ok (status_json 200 (VObj [ (js "move", VStr (sanitize t)) ]))
        /\ fetch_count (snd (handler E request tr))
           = (fetch_count tr + k + 1)%nat).
Proof.
  intros Hk Hfail Hr Hok.
  assert (Hafter : succeeds_after E tr k r) by (repeat split; (lia || assumption)).
  assert (Hrun : forall u o,
             fetchWithRetry E u o default_maxRetries tr
             = (Ok (Some r),
                tr ++ failed_rounds E u o k 0 (random_count tr) ++ [EvFetch u o])).
  { intros u o. apply (fetchWithRetry_succeeds_after u o Hafter). }
  split; [now rewrite Hrun|].
  split.
  { rewrite Hrun. cbn [snd].
    apply (fetchWithRetry_succeeds_after url options Hafter). }
  split.
  - intros request.
    destruct (accepted_dec E request) as [[fen Ha]|Hno].
    + set (E' := with_upstream E (fun _ => Resolved r)).
      destruct (ToString E fen) as [fen_text|e] eqn:Hs.
      * rewrite (@handler_reply_returned E request fen fen_text tr _ _ Ha Hs
                   (Hrun _ _)).
        assert (Hrun' :
                  fetchWithRetry E' (request_url E') (request_options fen_text)
                    default_maxRetries tr
                  = (Ok (Some r),
                     tr ++ failed_rounds E' (request_url E')
                             (request_options fen_text) 0 0 (random_count tr)
                        ++ [EvFetch (request_url E') (request_options fen_text)])).
        { apply fetchWithRetry_succeeds; try assumption.
          - unfold default_maxRetries. lia.
          - intros j Hj. lia.
          - reflexivity. }
        rewrite (@handler_reply_returned E' request fen fen_text tr _ _
                   (accepted_with_upstream _ Ha) Hs Hrun').
        reflexivity.
      * rewrite (@handler_rejects E request fen e tr Ha Hs).
        now rewrite (@handler_rejects E' request fen e tr
                       (accepted_with_upstream _ Ha) Hs).
    + destruct (@handler_not_accepted E request tr Hno) as [reply [evs [H1 [_ H2]]]].
      now rewrite H1, H2.
  - intros request fen fen_text result t Ha Hs Hj Ht Hne.
    rewrite (@handler_accepted E request fen fen_text tr Ha Hs).
    erewrite call_gemini_returned by apply Hrun.
    unfold try_catch.
    rewrite (@unwrap_usable E fen fen_text r result t _ Hs Hj Ht Hne).
    cbn [fst snd]. split; [reflexivity|].
    rewrite fetch_count_app.
    rewrite (proj2 (fetchWithRetry_succeeds_after _ _ Hafter)).
    change (fetch_count [EvConsole Log]) with 0%nat. lia.
Qed.

(* ================================================================= *)
(** ** Exhausted retries *)

(** C2.  If all five attempts fail, [fetchWithRetry] makes exactly five
    calls and throws the error of the fifth attempt, whatever the earlier
    ones were; the handler, for an accepted request whose position converts
    to a string, then replies with that error's message as the detail.  In
    particular, an upstream whose fifth answer is a 429 makes
    [fetchWithRetry] throw the rate-limit error after the five calls. *)
Theorem exhausted_retries_throw_last_error (E : Env) (url : jsstring)
    (options : FetchOptions) (tr : Trace) :
  (forall j, (j < 5)%nat -> fails (upstream E (fetch_count tr + j)) = true) ->
  fst (fetchWithRetry E url options default_maxRetries tr)
  = Throw (failure (upstream E (fetch_count tr + 4)))
  /\ fetch_count (snd (fetchWithRetry E url options default_maxRetries tr))
     = (fetch_count tr + 5)%nat
  /\ (forall r, upstream E (fetch_count tr + 4) = Resolved r ->
                status r = 429%N ->
                fst (fetchWithRetry E url options default_maxRetries tr)
                = Throw (new_Error (js "Rate limit exceeded")))
  /\ (forall request fen fen_text,
         accepted E request fen -> ToString E fen = Ok fen_text ->
         fst (handler E request tr)
         = Ok (communication_failure
                 (message (failure (upstream E (fetch_count tr + 4)))))
         /\ fetch_count (snd (handler E request tr)) = (fetch_count tr + 5)%nat).
Proof.
  intros Hfail.
  pose proof (fun u o => @fetchWithRetry_gives_up E u o tr Hfail) as Hrun.
  assert (Hcount : forall u o,
             fetch_count (tr ++ failed_rounds E u o 4 0 (random_count tr)
                             ++ [EvFetch u o])
             = (fetch_count tr + 5)%nat).
  { intros u o. rewrite !fetch_count_app, fetch_count_failed_rounds.
    change (fetch_count [EvFetch u o]) with 1%nat. lia. }
  split; [now rewrite Hrun|].
  split; [rewrite Hrun; apply Hcount|].
  split.
  { intros r Hr Hs. rewrite Hrun, Hr. simpl. now rewrite Hs. }
  intros request fen fen_text Ha Hs.
  rewrite (@handler_reply_thrown E request fen fen_text tr _ _ Ha Hs (Hrun _ _)).
  cbn [fst snd]. split; [reflexivity|].
  rewrite fetch_count_app, Hcount.
  change (fetch_count [EvConsole Err]) with 0%nat. lia.
Qed.

(** C10.  With the default of five attempts, whatever [fetchWithRetry]
    returns rather than throws is a response whose status is not 429 and
    whose [ok] flag holds. *)
Theorem returned_response_is_success (E : Env) (url : jsstring)
    (options : FetchOptions) (tr tr' : Trace) (o : option Response) :
  fetchWithRetry E url options default_maxRetries tr = (Ok o, tr') ->
  exists r, o = Some r /\ status r <> 429%N /\ ok r = true.
Proof.
  intros H. unfold fetchWithRetry in H.
  apply retry_loop_returns in H; [ | unfold default_maxRetries; lia | reflexivity].
  destruct H as [r [-> Hok]]. exists r. split; [reflexivity|].
  simpl in Hok. apply orb_false_iff in Hok. destruct Hok as [H1 H2].
  split.
  - now apply N.eqb_neq.
  - now apply negb_false_iff.
Qed.

(* ================================================================= *)
(** ** Unusable upstream bodies *)


(* ================================================================= *)
(** ** The backoff *)

(** Below [2^53], rounding stays between the integers that surround its
    argument. *)
Lemma round64_small (x : Q) (m M : Z) :
  (0 <= m)%Z -> (M < 2 ^ 53)%Z ->
  inject_Z m <= x -> x <= inject_Z M ->
  inject_Z m <= round64 x /\ round64 x <= inject_Z M.
Proof.
  intros H0 H53 Hm HM. apply round64_between; try assumption.
  - apply Qle_trans with (inject_Z m); [|exact Hm].
    change 0 with (inject_Z 0). now rewrite <- Zle_Qle.
  - apply Qle_lt_trans with (inject_Z M); [exact HM|]. now rewrite <- Zlt_Qlt.
Qed.

(** The jitter's share of the delay: at most a second, the second
    included. *)
Lemma jitter_range (r : Q) :
  0 <= r -> r < 1 -> 0 <= fmul r 1000 /\ fmul r 1000 <= 1000.
Proof.
  intros H0 H1. unfold fmul.
  apply (@round64_small (r * 1000) 0 1000); try lia.
  - change (inject_Z 0) with 0. lra.
  - change (inject_Z 1000) with 1000. lra.
Qed.

(** The delay computed in iteration [i < 4] with a jitter in [[0, 1)] lies
    between [2^i * 1000] and [2^i * 1000 + 1000], both included. *)
Lemma backoff_delay_range (i : nat) (r : Q) :
  (i < 4)%nat -> 0 <= r -> r < 1 -> in_backoff_range i (backoff_delay i r).
Proof.
  intros Hi H0 H1. destruct (jitter_range H0 H1) as [Hb0 Hb1].
  unfold in_backoff_range, backoff_delay, fadd.
  set (b := fmul r 1000) in *.
  destruct i as [|[|[|[|i]]]]; [| | | |lia].
  - replace (fmul (inject_Z (2 ^ Z.of_nat 0)) 1000) with 1000
      by (vm_compute; reflexivity).
    change (inject_Z (2 ^ Z.of_nat 0) * 1000) with (1 * 1000).
    destruct (@round64_small (1000 + b) 1000 2000) as [L U]; try lia.
    + change (inject_Z 1000) with 1000. lra.
    + change (inject_Z 2000) with 2000. lra.
    + change (inject_Z 1000) with 1000 in L.
      change (inject_Z 2000) with 2000 in U. split; lra.
  - replace (fmul (inject_Z (2 ^ Z.of_nat 1)) 1000) with 2000
      by (vm_compute; reflexivity).
    change (inject_Z (2 ^ Z.of_nat 1) * 1000) with (2 * 1000).
    destruct (@round64_small (2000 + b) 2000 3000) as [L U]; try lia.
    + change (inject_Z 2000) with 2000. lra.
    + change (inject_Z 3000) with 3000. lra.
    + change (inject_Z 2000) with 2000 in L.
      change (inject_Z 3000) with 3000 in U. split; lra.
  - replace (fmul (inject_Z (2 ^ Z.of_nat 2)) 1000) with 4000
      by (vm_compute; reflexivity).
    change (inject_Z (2 ^ Z.of_nat 2) * 1000) with (4 * 1000).
    destruct (@round64_small (4000 + b) 4000 5000) as [L U]; try lia.
    + change (inject_Z 4000) with 4000. lra.
    + change (inject_Z 5000) with 5000. lra.
    + change (inject_Z 4000) with 4000 in L.
      change (inject_Z 5000) with 5000 in U. split; lra.
  - replace (fmul (inject_Z (2 ^ Z.of_nat 3)) 1000) with 8000
      by (vm_compute; reflexivity).
    change (inject_Z (2 ^ Z.of_nat 3) * 1000) with (8 * 1000).
    destruct (@round64_small (8000 + b) 8000 9000) as [L U]; try lia.
    + change (inject_Z 8000) with 8000. lra.
    + change (inject_Z 9000) with 9000. lra.
    + change (inject_Z 8000) with 8000 in L.
      change (inject_Z 9000) with 9000 in U. split; lra.
Qed.

(** The four ranges, as plain bounds. *)
Lemma backoff_delay_bounds (r0 r1 r2 r3 : Q) :
  (0 <= r0 /\ r0 < 1) -> (0 <= r1 /\ r1 < 1) ->
  (0 <= r2 /\ r2 < 1) -> (0 <= r3 /\ r3 < 1) ->
  (1000 <= backoff_delay 0 r0 /\ backoff_delay 0 r0 <= 2000)
  /\ (2000 <= backoff_delay 1 r1 /\ backoff_delay 1 r1 <= 3000)
  /\ (4000 <= backoff_delay 2 r2 /\ backoff_delay 2 r2 <= 5000)
  /\ (8000 <= backoff_delay 3 r3 /\ backoff_delay 3 r3 <= 9000).
Proof.
  intros [A0 B0] [A1 B1] [A2 B2] [A3 B3].
  pose proof (@backoff_delay_range 0 r0 ltac:(lia) A0 B0) as [L0 U0].
  pose proof (@backoff_delay_range 1 r1 ltac:(lia) A1 B1) as [L1 U1].
  pose proof (@backoff_delay_range 2 r2 ltac:(lia) A2 B2) as [L2 U2].
  pose proof (@backoff_delay_range 3 r3 ltac:(lia) A3 B3) as [L3 U3].
  change (inject_Z (2 ^ Z.of_nat 0)) with 1 in L0, U0.
  change (inject_Z (2 ^ Z.of_nat 1)) with 2 in L1, U1.
  change (inject_Z (2 ^ Z.of_nat 2)) with 4 in L2, U2.
  change (inject_Z (2 ^ Z.of_nat 3)) with 8 in L3, U3.
  repeat split; lra.
Qed.

(** C4, as the code has it.  In a run of five failed attempts with jitters
    in [[0, 1)], exactly four delays are slept: none before attempt 0, and
    before each attempt [i + 1] (that is, after the failed attempt [i], for
    [i] from 0 to 3) one delay between [2^i * 1000] and [2^i * 1000 + 1000],
    both ends included, since the sum is rounded to a double; none is slept
    after the fifth attempt.  The total wait is at least 15 and at most 19
    seconds. *)
Theorem backoff_schedule (E : Env) (url : jsstring) (options : FetchOptions)
    (tr : Trace) :
  (forall j, (j < 5)%nat -> fails (upstream E (fetch_count tr + j)) = true) ->
  (forall n, 0 <= random E n /\ random E n < 1) ->
  exists (d0 d1 d2 d3 : Q) (evs : Trace),
    snd (fetchWithRetry E url options default_maxRetries tr) = tr ++ evs
    /\ evs = [ EvFetch url options; EvRandom; EvConsole Warn; EvSleep d0;
               EvFetch url options; EvRandom; EvConsole Warn; EvSleep d1;
               EvFetch url options; EvRandom; EvConsole Warn; EvSleep d2;
               EvFetch url options; EvRandom; EvConsole Warn; EvSleep d3;
               EvFetch url options ]
    /\ sleeps_before_attempt evs 0 = []
    /\ sleeps_before_attempt evs 1 = [d0]
    /\ sleeps_before_attempt evs 2 = [d1]
    /\ sleeps_before_attempt evs 3 = [d2]
    /\ sleeps_before_attempt evs 4 = [d3]
    /\ sleeps evs = [d0; d1; d2; d3]
    /\ in_backoff_range 0 d0 /\ in_backoff_range 1 d1
    /\ in_backoff_range 2 d2 /\ in_backoff_range 3 d3
    /\ 15000 <= total (sleeps evs) /\ total (sleeps evs) <= 19000.
Proof.
  intros Hfail Hrand.
  rewrite (@fetchWithRetry_gives_up E url options tr Hfail).
  cbn [snd failed_rounds failed_round app].
  set (n := random_count tr).
  pose proof (Hrand n) as [A0 B0].
  pose proof (Hrand (S n)) as [A1 B1].
  pose proof (Hrand (S (S n))) as [A2 B2].
  pose proof (Hrand (S (S (S n)))) as [A3 B3].
  pose proof (@backoff_delay_range 0 _ ltac:(lia) A0 B0) as W0.
  pose proof (@backoff_delay_range 1 _ ltac:(lia) A1 B1) as W1.
  pose proof (@backoff_delay_range 2 _ ltac:(lia) A2 B2) as W2.
  pose proof (@backoff_delay_range 3 _ ltac:(lia) A3 B3) as W3.
  pose proof (backoff_delay_bounds (Hrand n) (Hrand (S n)) (Hrand (S (S n)))
                (Hrand (S (S (S n))))) as [[L0 U0] [[L1 U1] [[L2 U2] [L3 U3]]]].
  do 4 eexists. eexists.
  split; [reflexivity|]. split; [reflexivity|].
  do 6 (split; [reflexivity|]).
  do 4 (split; [assumption|]).
  cbn [sleeps total fold_right].
  split; lra.
Qed.

(* ================================================================= *)
(** ** Validation of the request and of the configuration *)

(** The guards of lines 46-61, in the order in which they are met. *)
Lemma handler_guards (E : Env) (request : Request) (tr : Trace) :
  (method request = js "OPTIONS" ->
   handler E request tr = (Ok (status_end 200), tr))
  /\ (method request <> js "OPTIONS" -> method request <> js "POST" ->
      handler E request tr
      = (Ok (status_json 405 (error_object (js "Method Not Allowed. Use POST."))),
         tr))
  /\ (method request = js "POST" -> configured E = false ->
      handler E request tr
      = (Ok (status_json 500
               (error_object
                  (js "Server configuration error: Gemini API Key is missing."))),
         tr ++ [EvConsole Err])).
Proof.
  unfold handler. split; [|split].
  - intros ->. reflexivity.
  - intros Ho Hp.
    destruct (eqb (method request) (js "OPTIONS")) eqn:H1;
      [apply eqb_eq in H1; congruence|].
    destruct (eqb (method request) (js "POST")) eqn:H2;
      [apply eqb_eq in H2; congruence|].
    reflexivity.
  - intros -> Hk. rewrite method_POST_not_OPTIONS, eqb_refl.
    fold (configured E). rewrite Hk. reflexivity.
Qed.

(** C7, as the code has it.  A request whose required input is missing is
    answered without any outbound call, by either entry point.  The handler
    replies 400 with an explanatory message when the request is a POST and
    the key is configured; the guards that come first decide otherwise: an
    OPTIONS request is answered 200, a request of another method than POST
    405, and a POST received while the key is not configured 500.  The
    standalone server replies 400 with an explanatory message when the body
    is an object, or any value other than null and undefined. *)
Theorem missing_input_is_rejected (E : Env) (request : Request)
    (req : ExpressRequest) (tr : Trace) :
  fen_missing E request = true ->
  prompt_or_model_missing E req = true ->
  (exists reply evs,
      handler E request tr = (Ok reply, tr ++ evs)
      /\ fetch_count evs = 0%nat
      /\ (method request = js "OPTIONS" -> reply = status_end 200)
      /\ (method request <> js "OPTIONS" -> method request <> js "POST" ->
          reply = status_json 405
                    (error_object (js "Method Not Allowed. Use POST.")))
      /\ (method request = js "POST" -> configured E = false ->
          reply = status_json 500
                    (error_object
                       (js "Server configuration error: Gemini API Key is missing.")))
      /\ (method request = js "POST" -> configured E = true ->
          evs = []
          /\ exists msg,
               reply = status_json 400 (error_object msg)
               /\ (msg = js "Missing FEN string in request body."
                   \/ msg = js "Invalid JSON request body.")))
  /\ (exists reply evs,
         proxy_post E req tr = (Ok reply, tr ++ evs)
         /\ fetch_count evs = 0%nat
         /\ (nullish (req_body req) = false ->
             evs = []
             /\ reply = res_status_json 400
                          (error_object
                             (js "Missing 'prompt' or 'model' in request body.")))).
Proof.
  intros Hfen Hpm. split.
  - assert (Hno : forall fen, ~ accepted E request fen).
    { intros fen [_ [_ [H1 H2]]]. unfold fen_missing in Hfen.
      rewrite H1, H2 in Hfen. discriminate. }
    destruct (@handler_not_accepted E request tr Hno) as [reply [evs [H [Hc _]]]].
    destruct (handler_guards E request tr) as [Hoptions [Hother Hkey]].
    exists reply, evs. split; [exact H|]. split; [exact Hc|].
    split; [|split; [|split]].
    + intros Hm. rewrite (Hoptions Hm) in H. now injection H as <- _.
    + intros Ho Hp. rewrite (Hother Ho Hp) in H. now injection H as <- _.
    + intros Hm Hk. rewrite (Hkey Hm Hk) in H. now injection H as <- _.
    + intros Hm Hk. revert H. unfold handler, configured in *.
      rewrite Hm, method_POST_not_OPTIONS, eqb_refl, Hk. simpl.
      unfold fen_missing in Hfen.
      destruct (and_then (body request) (prop E (js "fen"))) as [fen|e].
      * rewrite Hfen. unfold ret. intros [= <- Htr].
        split.
        -- apply (app_inv_head tr). now rewrite app_nil_r.
        -- eexists. split; [reflexivity|]. now left.
      * unfold ret. intros [= <- Htr].
        split.
        -- apply (app_inv_head tr). now rewrite app_nil_r.
        -- eexists. split; [reflexivity|]. now right.
  - unfold prompt_or_model_missing in Hpm.
    unfold proxy_post, try_catch, bind at 1, await.
    destruct (destructure_prompt_model E (req_body req)) as [[prompt model]|e] eqn:Hd.
    + rewrite Hpm. eexists. exists []. unfold ret. rewrite app_nil_r.
      split; [reflexivity|]. split; [reflexivity|]. now intros _.
    + eexists. exists [EvConsole Err]. unfold bind, console, emit, ret.
      split; [reflexivity|]. split; [reflexivity|].
      intros Hnn. exfalso. revert Hd. unfold destructure_prompt_model.
      rewrite Hnn.
      destruct (@get_defined E (req_body req) (js "prompt") Hnn) as [v1 ->].
      destruct (@get_defined E (req_body req) (js "model") Hnn) as [v2 ->].
      discriminate.
Qed.

(** C8, as the code has it.  While the key is not configured, the handler
    replies to every request without any outbound call: to an OPTIONS
    request with 200, to a request of another method than POST with 405
    (the method is looked at before the key), and to every POST with a 500
    whose message names the missing key.  The standalone server does not
    serve requests in that state: the process exits with code 1 before it
    listens, and no outbound call is made. *)
Theorem missing_key_is_a_configuration_error (E : Env) (request : Request)
    (req : ExpressRequest) (tr : Trace) :
  configured E = false ->
  (exists reply evs,
      handler E request tr = (Ok reply, tr ++ evs)
      /\ fetch_count evs = 0%nat
      /\ (method request = js "POST" ->
          reply = status_json 500
                    (error_object
                       (js "Server configuration error: Gemini API Key is missing.")))
      /\ (method request = js "OPTIONS" -> reply = status_end 200)
      /\ (method request <> js "OPTIONS" -> method request <> js "POST" ->
          reply = status_json 405
                    (error_object (js "Method Not Allowed. Use POST."))))
  /\ proxy_main E tr = (Ok (Exited 1), tr ++ [EvConsole Err])
  /\ proxy_serve E req tr = (Ok None, tr ++ [EvConsole Err]).
Proof.
  intros Hk. split; [|split].
  - assert (Hno : forall fen, ~ accepted E request fen).
    { intros fen [_ [H _]]. congruence. }
    destruct (@handler_not_accepted E request tr Hno) as [reply [evs [H [Hc _]]]].
    destruct (handler_guards E request tr) as [Hoptions [Hother Hkey]].
    exists reply, evs. split; [exact H|]. split; [exact Hc|].
    split; [|split].
    + intros Hm. rewrite (Hkey Hm Hk) in H. now injection H as <- _.
    + intros Hm. rewrite (Hoptions Hm) in H. now injection H as <- _.
    + intros Ho Hp. rewrite (Hother Ho Hp) in H. now injection H as <- _.
  - unfold proxy_main, configured in *. now rewrite Hk.
  - unfold configured in Hk. unfold proxy_serve, bind at 1, proxy_main.
    now rewrite Hk.
Qed.

(* ================================================================= *)
(** ** The two entry points side by side *)

(** Whatever [fetchWithRetry] returned, lines 101-126 end in a reply with a
    JSON body. *)
Lemma reply_is_json (E : Env) (fen : value) (o : option Response)
    (tr tr' : Trace) (res : Result Reply) :
  try_catch (unwrap_response E fen o)
    (fun error => console Err ;;; ret (communication_failure (message error))) tr
  = (res, tr') ->
  exists reply, res = Ok reply /\ reply_body reply <> None.
Proof.
  unfold try_catch, unwrap_response, bind, await, ret, throw, console, emit.
  repeat match goal with
         | |- context [match ?x with _ => _ end] =>
             lazymatch x with
             | context [match _ with _ => _ end] => fail
             | _ => destruct x; cbv beta iota
             end
         end;
    intros [= <- _]; eexists; (split; [reflexivity | discriminate]).
Qed.

Lemma no_fetch_in_console (levels : list ConsoleLevel) u o :
  ~ In (EvFetch u o) (List.map EvConsole levels).
Proof.
  induction levels as [|l levels IH]; simpl; [tauto|].
  intros [H|H]; [discriminate | now apply IH].
Qed.

(** The calls and the reply of the handler on an accepted request whose
    position converts to a string. *)
Lemma handler_calls (E : Env) (request : Request) (fen : value)
    (fen_text : jsstring) (tr : Trace) :
  accepted E request fen ->
  ToString E fen = Ok fen_text ->
  exists reply evs,
    handler E request tr = (Ok reply, tr ++ evs)
    /\ (1 <= fetch_count evs <= 5)%nat
    /\ (forall u o, In (EvFetch u o) evs ->
                    u = request_url E /\ o = request_options fen_text)
    /\ reply_body reply <> None.
Proof.
  intros Ha Hs. rewrite (@handler_accepted E request fen fen_text tr Ha Hs).
  destruct (@retry_loop_calls E (request_url E) (request_options fen_text)
              default_maxRetries default_maxRetries 0 tr)
    as [res [evs [Hrun [Hle [Hge Hall]]]]].
  fold (fetchWithRetry E (request_url E) (request_options fen_text)
          default_maxRetries tr) in Hrun.
  destruct res as [o|e].
  - erewrite call_gemini_returned by exact Hrun.
    destruct (quiet_reply E fen o) as [res [lv Hq]].
    pose proof (@reply_is_json E fen o (tr ++ evs) _ _ (Hq (tr ++ evs)))
      as [reply [-> Hbody]].
    exists reply, (evs ++ List.map EvConsole lv).
    rewrite Hq, app_assoc. split; [reflexivity|].
    rewrite fetch_count_app, fetch_count_console.
    split; [unfold default_maxRetries in *; lia|].
    split; [|exact Hbody].
    intros u o' Hin. apply in_app_or in Hin. destruct Hin as [Hin|Hin].
    + now apply Hall in Hin.
    + now apply no_fetch_in_console in Hin.
  - erewrite call_gemini_thrown by exact Hrun.
    exists (communication_failure (message e)), (evs ++ [EvConsole Err]).
    rewrite app_assoc. split; [reflexivity|].
    rewrite fetch_count_app. change (fetch_count [EvConsole Err]) with 0%nat.
    split; [unfold default_maxRetries in *; lia|].
    split; [|discriminate].
    intros u o' Hin. apply in_app_or in Hin. destruct Hin as [Hin|Hin].
    + now apply Hall in Hin.
    + destruct Hin as [Hin|[]]. discriminate.
Qed.

Lemma request_url_key (E : Env) (key : jsstring) :
  GEMINI_API_KEY E = Some key ->
  request_url E
  = GEMINI_API_BASE ++ MODEL_NAME ++ js ":generateContent?key=" ++ key.
Proof. intros H. unfold request_url, the_key. now rewrite H. Qed.

Lemma geminiUrl_key (E : Env) (key model_text : jsstring) (model : value) :
  GEMINI_API_KEY E = Some key ->
  ToString E model = Ok model_text ->
  geminiUrl E model
  = Ok (js "https://generativelanguage.googleapis.com/v1beta/models/"
        ++ model_text ++ js ":generateContent?key=" ++ key).
Proof. intros Hk Hm. unfold geminiUrl. now rewrite Hm, Hk. Qed.

(** C9, as the code has it.  For a position and a model that convert to
    strings (as every string does), both entry points accept the request,
    put the configured key in the URL of every outbound call, call the
    upstream and reply with JSON.  They differ in the rest: the serverless
    handler makes between one and five calls, and after at most four failed
    attempts followed by a success it replies with the cleaned text of the
    first candidate; the standalone server makes exactly one call, whatever
    its outcome, and relays the parsed upstream body unchanged with status
    200, whatever the upstream status. *)
Theorem entry_points_compared (E : Env) (key : jsstring) (request : Request)
    (fen : value) (fen_text : jsstring) (req : ExpressRequest)
    (prompt model : value) (model_text : jsstring) (tr : Trace) :
  GEMINI_API_KEY E = Some key ->
  accepted E request fen ->
  ToString E fen = Ok fen_text ->
  destructure_prompt_model E (req_body req) = Ok (prompt, model) ->
  truthy prompt = true -> truthy model = true ->
  ToString E model = Ok model_text ->
  (exists reply evs,
      handler E request tr = (Ok reply, tr ++ evs)
      /\ (1 <= fetch_count evs <= 5)%nat
      /\ (forall u o, In (EvFetch u o) evs ->
                      u = GEMINI_API_BASE ++ MODEL_NAME
                          ++ js ":generateContent?key=" ++ key)
      /\ reply_body reply <> None)
  /\ (forall k r result t,
         (k < 5)%nat ->
         (forall j, (j < k)%nat -> fails (upstream E (fetch_count tr + j)) = true) ->
         upstream E (fetch_count tr + k) = Resolved r ->
         fails (Resolved r) = false ->
         json r = Ok result -> result_text E result = Ok (VStr t) -> t <> [] ->
         observation (handler E request tr)
         = (Some (200%N, Some (VObj [ (js "move", VStr (sanitize t)) ])),
            (fetch_count tr + k + 1)%nat))
  /\ (exists reply evs,
         proxy_post E req tr
         = (Ok reply,
            tr ++ EvFetch (js "https://generativelanguage.googleapis.com/v1beta/models/"
                           ++ model_text ++ js ":generateContent?key=" ++ key)
                    (proxy_options prompt) :: evs)
         /\ fetch_count evs = 0%nat
         /\ reply_body reply <> None)
  /\ (forall r data,
         upstream E (fetch_count tr) = Resolved r -> json r = Ok data ->
         observation (proxy_post E req tr)
         = (Some (200%N, Some data), (fetch_count tr + 1)%nat)).
Proof.
  intros Hkey Ha Hs Hd Hp Hm Hmt.
  pose proof (@request_url_key E key Hkey) as Hurl.
  pose proof (@geminiUrl_key E key model_text model Hkey Hmt) as Hgurl.
  split; [|split; [|split]].
  - destruct (@handler_calls E request fen fen_text tr Ha Hs)
      as [reply [evs [H1 [H2 [H3 H4]]]]].
    exists reply, evs. rewrite <- Hurl. repeat split; try tauto.
    intros u o Hin. now apply H3 in Hin.
  - intros k r result t Hk Hfail Hr Hok Hj Ht Hne.
    assert (Hafter : succeeds_after E tr k r) by now repeat split.
    rewrite (@handler_accepted E request fen fen_text tr Ha Hs).
    erewrite call_gemini_returned
      by apply (proj1 (fetchWithRetry_succeeds_after _ _ Hafter)).
    unfold try_catch.
    rewrite (@unwrap_usable E fen fen_text r result t _ Hs Hj Ht Hne).
    unfold observation. cbn [fst snd status_json reply_status reply_body].
    f_equal.
    rewrite fetch_count_app, (proj2 (fetchWithRetry_succeeds_after _ _ Hafter)).
    change (fetch_count [EvConsole Log]) with 0%nat. lia.
  - unfold proxy_post, try_catch, bind at 1, await. rewrite Hd.
    rewrite Hp, Hm. cbn [negb orb]. unfold bind at 1. rewrite Hgurl.
    unfold bind, fetch.
    destruct (upstream E (fetch_count tr)) as [e|r].
    + eexists. exists [EvConsole Err].
      unfold console, emit, ret. rewrite <- app_assoc.
      split; [reflexivity|]. split; [reflexivity | discriminate].
    + destruct (json r) as [data|e].
      * exists (res_json data), []. unfold ret.
        split; [reflexivity|]. split; [reflexivity | discriminate].
      * eexists. exists [EvConsole Err].
        unfold console, emit, ret. rewrite <- app_assoc.
        split; [reflexivity|]. split; [reflexivity | discriminate].
  - intros r data Hr Hj.
    unfold proxy_post, try_catch, bind at 1, await. rewrite Hd.
    rewrite Hp, Hm. cbn [negb orb]. unfold bind at 1. rewrite Hgurl.
    unfold bind, fetch. rewrite Hr, Hj. unfold ret, observation.
    cbn [fst snd res_json reply_status reply_body].
    f_equal. rewrite fetch_count_app. reflexivity.
Qed.

(* ================================================================= *)
(** ** Where the specification's wording and the code part ways *)

(** C4, refuted as worded.  When every attempt is answered 429 and the
    jitter is 0, no delay is slept before attempt 0, the delay before
    attempt 1 is 1000 ms, outside [[2000, 3000)], and the delays add up to
    15 seconds.  When the jitter is the largest double below 1, the delays
    are rounded to 2000, 3000, 5000 and 9000 ms: the first one is the upper
    end of its interval, which the half-open interval leaves out, and they
    add up to 19 seconds. *)
Lemma backoff_not_as_specified :
  let tr := snd (fetchWithRetry Sample.always_429 Sample.url Sample.options
                   default_maxRetries []) in
  let tr' := snd (fetchWithRetry Sample.always_429_slowest Sample.url
                    Sample.options default_maxRetries []) in
  fetch_count tr = 5%nat
  /\ sleeps_before_attempt tr 0 = []
  /\ sleeps_before_attempt tr 1 = [1000]
  /\ ~ in_backoff_window 1 1000
  /\ sleeps tr = [1000; 2000; 4000; 8000]
  /\ total (sleeps tr) = 15000
  /\ ~ backoff_as_specified tr
  /\ (0 <= Sample.almost_one /\ Sample.almost_one < 1)
  /\ sleeps tr' = [2000; 3000; 5000; 9000]
  /\ ~ in_backoff_window 0 2000
  /\ total (sleeps tr') = 19000.
Proof.
  cbv zeta.
  split; [reflexivity|]. split; [reflexivity|]. split; [vm_compute; reflexivity|].
  split; [intros [H _]; vm_compute in H; now apply H|].
  split; [vm_compute; reflexivity|]. split; [vm_compute; reflexivity|].
  split.
  { intros H. destruct (H 0%nat) as [d [Hd _]]; [lia|].
    vm_compute in Hd. discriminate. }
  split; [split; [discriminate | reflexivity]|].
  split; [vm_compute; reflexivity|].
  split; [intros [_ H]; vm_compute in H; discriminate H|].
  vm_compute; reflexivity.
Qed.


(** C7, refuted as worded.  A POST without a position, received while the
    key is not configured, is answered 500, and an OPTIONS request without
    a position 200. *)
Lemma missing_input_is_not_always_a_400 :
  fen_missing Sample.unconfigured Sample.empty_post = true
  /\ fst (handler Sample.unconfigured Sample.empty_post [])
     = Ok (status_json 500
             (error_object
                (js "Server configuration error: Gemini API Key is missing.")))
  /\ fen_missing Sample.flaky Sample.options_request = true
  /\ fst (handler Sample.flaky Sample.options_request [])
     = Ok (status_end 200).
Proof. repeat split; reflexivity. Qed.

(** C8, refuted as worded.  An OPTIONS request received while the key is
    not configured is answered 200, and a GET request 405; the standalone
    server, started without the key, gives a request no reply at all. *)
Lemma preflight_ignores_the_key :
  configured Sample.unconfigured = false
  /\ handler Sample.unconfigured Sample.options_request []
     = (Ok (status_end 200), [])
  /\ reply_status (status_end 200) <> 500%N
  /\ fst (handler Sample.unconfigured (mkRequest (js "GET") (Ok VUndefined)) [])
     = Ok (status_json 405 (error_object (js "Method Not Allowed. Use POST.")))
  /\ fst (proxy_serve Sample.unconfigured Sample.empty_body []) = Ok None.
Proof.
  split; [reflexivity|]. split; [reflexivity|]. split; [discriminate|].
  split; reflexivity.
Qed.

(** C9, refuted as worded.  When the first call is answered 429 and the
    second one gives the move e4, the handler makes two calls and replies
    with the move, and the standalone server makes one call and relays the
    body of the 429. *)
Lemma entry_points_differ :
  observation (handler Sample.once_limited (post_fen (js "startpos")) [])
  = (Some (200%N, Some (VObj [ (js "move", VStr (js "e4")) ])), 2%nat)
  /\ observation (proxy_post Sample.once_limited
                    (post_prompt (js "Best move?") (js "gemini-pro")) [])
     = (Some (200%N, Some Sample.quota_body), 1%nat)
  /\ ~ same_function_as_specified.
Proof.
  split; [reflexivity|]. split; [reflexivity|].
  intros H.
  pose proof (H Sample.once_limited (js "s3cret") (js "startpos")
                (js "Best move?") (js "gemini-pro") eq_refl) as HP.
  assert (HQ : observation
                 (handler Sample.once_limited (post_fen (js "startpos")) [])
               = observation
                   (proxy_post Sample.once_limited
                      (post_prompt (js "Best move?") (js "gemini-pro")) []))
    by (apply HP; intros X; vm_compute in X; discriminate X).
  vm_compute in HQ. discriminate HQ.
Qed.

(* ================================================================= *)
(** ** The theorems at work on the sample worlds *)

(** Two failures (a 429 and a broken connection), then the move. *)
Lemma retry_is_transparent_flaky :
  fst (fetchWithRetry Sample.flaky Sample.url Sample.options
         default_maxRetries [])
  = Ok (Some (Sample.success (js " 'e4'. ")))
  /\ fetch_count (snd (fetchWithRetry Sample.flaky Sample.url Sample.options
                         default_maxRetries []))
     = 3%nat
  /\ fst (handler Sample.flaky (post_fen (js "startpos")) [])
     = Ok (status_json 200 (VObj [ (js "move", VStr (js "e4")) ]))
  /\ fetch_count (snd (handler Sample.flaky (post_fen (js "startpos")) []))
     = 3%nat.
Proof.
  assert (Hfail : forall j, (j < 2)%nat ->
                    fails (upstream Sample.flaky (fetch_count [] + j)) = true)
    by (intros [|[|j]] Hj; [reflexivity | reflexivity | lia]).
  assert (Hacc : accepted Sample.flaky (post_fen (js "startpos"))
                   (VStr (js "startpos")))
    by (repeat split; reflexivity).
  destruct (@retry_is_transparent Sample.flaky Sample.url Sample.options [] 2
              (Sample.success (js " 'e4'. ")) ltac:(lia) Hfail eq_refl eq_refl)
    as [H1 [H2 [_ H4]]].
  split; [exact H1|]. split; [exact H2|].
  refine (H4 (post_fen (js "startpos")) (VStr (js "startpos")) (js "startpos")
             (Sample.answer (js " 'e4'. ")) (js " 'e4'. ")
             Hacc eq_refl eq_refl eq_refl _).
  discriminate.
Defined.

(** Five answers 429: the rate-limit error after five calls, and the reply
    that carries its message. *)
Lemma exhausted_retries_always_429 :
  fst (fetchWithRetry Sample.always_429 Sample.url Sample.options
         default_maxRetries [])
  = Throw (new_Error (js "Rate limit exceeded"))
  /\ fetch_count (snd (fetchWithRetry Sample.always_429 Sample.url
                         Sample.options default_maxRetries []))
     = 5%nat
  /\ fst (handler Sample.always_429 (post_fen (js "startpos")) [])
     = Ok (communication_failure (js "Rate limit exceeded"))
  /\ fetch_count (snd (handler Sample.always_429 (post_fen (js "startpos")) []))
     = 5%nat.
Proof.
  assert (Hfail : forall j, (j < 5)%nat ->
                    fails (upstream Sample.always_429 (fetch_count [] + j)) = true)
    by (intros [|j] Hj; reflexivity).
  assert (Hacc : accepted Sample.always_429 (post_fen (js "startpos"))
                   (VStr (js "startpos")))
    by (repeat split; reflexivity).
  destruct (@exhausted_retries_throw_last_error Sample.always_429 Sample.url
              Sample.options [] Hfail) as [_ [H2 [H3 H4]]].
  split; [exact (H3 Sample.rate_limited eq_refl eq_refl)|].
  split; [exact H2|].
  exact (H4 (post_fen (js "startpos")) (VStr (js "startpos")) (js "startpos")
            Hacc eq_refl).
Defined.

(** Five answers 429, with a jitter of half a second each time. *)
Lemma backoff_schedule_always_429 :
  exists (d0 d1 d2 d3 : Q) (evs : Trace),
    snd (fetchWithRetry Sample.always_429_jittery Sample.url Sample.options
           default_maxRetries [])
    = [] ++ evs
    /\ evs = [ EvFetch Sample.url Sample.options; EvRandom; EvConsole Warn; EvSleep d0;
               EvFetch Sample.url Sample.options; EvRandom; EvConsole Warn; EvSleep d1;
               EvFetch Sample.url Sample.options; EvRandom; EvConsole Warn; EvSleep d2;
               EvFetch Sample.url Sample.options; EvRandom; EvConsole Warn; EvSleep d3;
               EvFetch Sample.url Sample.options ]
    /\ sleeps_before_attempt evs 0 = []
    /\ sleeps_before_attempt evs 1 = [d0]
    /\ sleeps_before_attempt evs 2 = [d1]
    /\ sleeps_before_attempt evs 3 = [d2]
    /\ sleeps_before_attempt evs 4 = [d3]
    /\ sleeps evs = [d0; d1; d2; d3]
    /\ in_backoff_range 0 d0 /\ in_backoff_range 1 d1
    /\ in_backoff_range 2 d2 /\ in_backoff_range 3 d3
    /\ 15000 <= total (sleeps evs) /\ total (sleeps evs) <= 19000.
Proof.
  apply (@backoff_schedule Sample.always_429_jittery Sample.url Sample.options []).
  - intros [|j] Hj; reflexivity.
  - intros n. split; simpl; [discriminate | reflexivity].
Defined.


(** A POST without a position, and a body without prompt and model. *)
Lemma missing_input_is_rejected_empty :
  (exists reply,
      handler Sample.flaky Sample.empty_post [] = (Ok reply, [])
      /\ reply_status reply = 400%N)
  /\ proxy_post Sample.flaky Sample.empty_body []
     = (Ok (res_status_json 400
              (error_object (js "Missing 'prompt' or 'model' in request body."))),
        []).
Proof.
  destruct (@missing_input_is_rejected Sample.flaky Sample.empty_post
              Sample.empty_body [] eq_refl eq_refl)
    as [[reply [evs [H [_ [_ [_ [_ Hpost]]]]]]] [reply' [evs' [H' [_ Hbody]]]]].
  split.
  - destruct (Hpost eq_refl eq_refl) as [Hevs [msg [Hreply _]]].
    exists reply. rewrite H, Hevs, Hreply. split; reflexivity.
  - destruct (Hbody eq_refl) as [Hevs Hreply].
    rewrite H', Hevs, Hreply. reflexivity.
Defined.

(** A POST with a position, while the key is not set. *)
Lemma missing_key_unconfigured :
  (exists evs,
      handler Sample.unconfigured (post_fen (js "startpos")) []
      = (Ok (status_json 500
               (error_object
                  (js "Server configuration error: Gemini API Key is missing."))),
         evs)
      /\ fetch_count evs = 0%nat)
  /\ proxy_main Sample.unconfigured [] = (Ok (Exited 1), [EvConsole Err])
  /\ proxy_serve Sample.unconfigured
       (post_prompt (js "Best move?") (js "gemini-pro")) []
     = (Ok None, [EvConsole Err]).
Proof.
  destruct (@missing_key_is_a_configuration_error Sample.unconfigured
              (post_fen (js "startpos"))
              (post_prompt (js "Best move?") (js "gemini-pro")) [] eq_refl)
    as [[reply [evs [H [Hc [Hpost _]]]]] [Hmain Hserve]].
  split; [|split; [exact Hmain | exact Hserve]].
  exists evs. rewrite H, (Hpost eq_refl). split; [reflexivity | exact Hc].
Defined.

(** What [fetchWithRetry] returns after two failures. *)
Lemma returned_response_is_success_flaky :
  exists r,
    Some (Sample.success (js " 'e4'. ")) = Some r
    /\ status r <> 429%N /\ ok r = true.
Proof.
  apply (@returned_response_is_success Sample.flaky Sample.url Sample.options []
           (snd (fetchWithRetry Sample.flaky Sample.url Sample.options
                   default_maxRetries []))
           (Some (Sample.success (js " 'e4'. ")))).
  reflexivity.
Defined.

(** Both entry points, on a world that answers 429 once. *)
Lemma entry_points_compared_once_limited :
  observation (handler Sample.once_limited (post_fen (js "startpos")) [])
  = (Some (200%N, Some (VObj [ (js "move", VStr (js "e4")) ])), 2%nat)
  /\ observation (proxy_post Sample.once_limited
                    (post_prompt (js "Best move?") (js "gemini-pro")) [])
     = (Some (200%N, Some Sample.quota_body), 1%nat).
Proof.
  assert (Hacc : accepted Sample.once_limited (post_fen (js "startpos"))
                   (VStr (js "startpos")))
    by (repeat split; reflexivity).
  destruct (@entry_points_compared Sample.once_limited (js "s3cret")
              (post_fen (js "startpos")) (VStr (js "startpos")) (js "startpos")
              (post_prompt (js "Best move?") (js "gemini-pro"))
              (VStr (js "Best move?")) (VStr (js "gemini-pro"))
              (js "gemini-pro") []
              eq_refl Hacc eq_refl eq_refl eq_refl eq_refl eq_refl)
    as [_ [Hhandler [_ Hproxy]]].
  split.
  - refine (Hhandler 1%nat (Sample.success (js "e4")) (Sample.answer (js "e4"))
              (js "e4") _ _ eq_refl eq_refl eq_refl eq_refl _).
    + lia.
    + intros [|j] Hj; [reflexivity | lia].
    + discriminate.
  - exact (Hproxy Sample.rate_limited Sample.quota_body eq_refl eq_refl).
Defined.
(* ================================================================= *)
(** * Further properties *)

(* ================================================================= *)
(** ** Every run of the retry loop *)

Lemma sleeps_failed_rounds E url options k i n :
  sleeps (failed_rounds E url options k i n) = backoff_delays E k i n.
Proof.
  revert i n. induction k as [|k IH]; intros i n; simpl; [reflexivity|].
  now rewrite IH.
Qed.

Lemma length_backoff_delays E k i n : List.length (backoff_delays E k i n) = k.
Proof.
  revert i n. induction k as [|k IH]; intros i n; simpl; [reflexivity|].
  now rewrite IH.
Qed.

(** Among the outcomes [base], [base + 1], ..., [base + n - 1] either all
    fail or there is a first one that does not. *)
Lemma first_success_or_all_fail (E : Env) (base n : nat) :
  (exists k, (k < n)%nat
             /\ (forall j, (j < k)%nat -> fails (upstream E (base + j)) = true)
             /\ fails (upstream E (base + k)) = false)
  \/ (forall j, (j < n)%nat -> fails (upstream E (base + j)) = true).
Proof.
  induction n as [|n [[k [Hk [Hbefore Hat]]]|Hall]].
  - right. intros j Hj. lia.
  - left. exists k. split; [lia|]. now split.
  - destruct (fails (upstream E (base + n))) eqn:Hn.
    + right. intros j Hj.
      destruct (Nat.eq_dec j n) as [->|Hne]; [exact Hn | apply Hall; lia].
    + left. exists n. split; [lia|]. now split.
Qed.

(** What a run of [fetchWithRetry] is, whatever the upstream does: some
    number [k] of failed rounds, then one last call, which is either the
    first success or the failure of the last attempt allowed. *)
Lemma fetchWithRetry_outcome (E : Env) (url : jsstring) (options : FetchOptions)
    (maxRetries : nat) (tr : Trace) :
  (0 < maxRetries)%nat ->
  exists k res,
    (k < maxRetries)%nat
    /\ (forall j, (j < k)%nat -> fails (upstream E (fetch_count tr + j)) = true)
    /\ fetchWithRetry E url options maxRetries tr
       = (res,
          tr ++ failed_rounds E url options k 0 (random_count tr)
             ++ [EvFetch url options])
    /\ ((exists r, upstream E (fetch_count tr + k) = Resolved r
                   /\ fails (Resolved r) = false /\ res = Ok (Some r))
        \/ (k = (maxRetries - 1)%nat
            /\ fails (upstream E (fetch_count tr + k)) = true
            /\ res = Throw (failure (upstream E (fetch_count tr + k))))).
Proof.
  intros Hpos.
  destruct (first_success_or_all_fail E (fetch_count tr) maxRetries)
    as [[k [Hk [Hbefore Hat]]]|Hall].
  - destruct (upstream E (fetch_count tr + k)) as [e|r] eqn:Hr; [discriminate|].
    exists k, (Ok (Some r)). split; [exact Hk|]. split; [exact Hbefore|].
    split.
    + now apply fetchWithRetry_succeeds.
    + left. exists r. now repeat split.
  - exists (maxRetries - 1)%nat. eexists. split; [lia|].
    split; [intros j Hj; apply Hall; lia|].
    split.
    + now apply fetchWithRetry_exhausted.
    + right. split; [reflexivity|]. split; [apply Hall; lia | reflexivity].
Qed.

(** X1.  For any upstream and any positive bound [maxRetries],
    [fetchWithRetry] makes [k + 1] calls for some [k < maxRetries], all with
    the same URL and options; between two consecutive calls, and only there,
    it draws one jitter, warns once and sleeps once; it ends right after a
    call, which is the first successful one (then returned) or the
    [maxRetries]-th failed one (then its error is thrown).  With a bound of
    0 it makes no call and returns [undefined]. *)
Theorem fetchWithRetry_runs (E : Env) (url : jsstring) (options : FetchOptions)
    (maxRetries : nat) (tr : Trace) :
  (0 < maxRetries)%nat ->
  fetchWithRetry E url options 0 tr = (Ok None, tr)
  /\ exists k res,
       (k < maxRetries)%nat
       /\ (forall j, (j < k)%nat ->
                     fails (upstream E (fetch_count tr + j)) = true)
       /\ fetchWithRetry E url options maxRetries tr
          = (res,
             tr ++ failed_rounds E url options k 0 (random_count tr)
                ++ [EvFetch url options])
       /\ ((exists r, upstream E (fetch_count tr + k) = Resolved r
                      /\ fails (Resolved r) = false /\ res = Ok (Some r))
           \/ (k = (maxRetries - 1)%nat
               /\ fails (upstream E (fetch_count tr + k)) = true
               /\ res = Throw (failure (upstream E (fetch_count tr + k))))).
Proof.
  intros Hpos. split; [reflexivity|]. now apply fetchWithRetry_outcome.
Qed.

(** X2.  When the first attempt succeeds, [fetchWithRetry] returns its
    response after that single call: no jitter is drawn, nothing is logged
    and nothing is slept. *)
Theorem first_attempt_success_is_immediate (E : Env) (url : jsstring)
    (options : FetchOptions) (maxRetries : nat) (tr : Trace) (r : Response) :
  (0 < maxRetries)%nat ->
  upstream E (fetch_count tr) = Resolved r ->
  status r <> 429%N -> ok r = true ->
  fetchWithRetry E url options maxRetries tr
  = (Ok (Some r), tr ++ [EvFetch url options]).
Proof.
  intros Hpos Hr Hs Hok.
  rewrite (@fetchWithRetry_succeeds E url options maxRetries 0 tr r).
  - reflexivity.
  - exact Hpos.
  - intros j Hj. lia.
  - now rewrite Nat.add_0_r.
  - simpl. apply N.eqb_neq in Hs. now rewrite Hs, Hok.
Qed.

(* ================================================================= *)
(** ** The growth of the backoff *)

Lemma pow2_ge_1 (i : nat) : 1 <= inject_Z (2 ^ Z.of_nat i).
Proof.
  change 1 with (inject_Z 1). rewrite <- Zle_Qle.
  pose proof (Z.pow_pos_nonneg 2 (Z.of_nat i)). lia.
Qed.

Lemma pow2_double (i j : nat) :
  (i < j)%nat -> 2 * inject_Z (2 ^ Z.of_nat i) <= inject_Z (2 ^ Z.of_nat j).
Proof.
  intros Hij. change 2 with (inject_Z 2) at 1.
  rewrite <- inject_Z_mult, <- Zle_Qle.
  replace (2 * 2 ^ Z.of_nat i)%Z with (2 ^ Z.of_nat (S i))%Z
    by (rewrite Nat2Z.inj_succ, Z.pow_succ_r; lia).
  apply Z.pow_le_mono_r; lia.
Qed.

(** A later attempt does not wait less than an earlier one, whatever the
    two jitters. *)
Lemma backoff_delay_le (i j : nat) (r r' : Q) :
  (i < j < 4)%nat -> 0 <= r -> r < 1 -> 0 <= r' -> r' < 1 ->
  backoff_delay i r <= backoff_delay j r'.
Proof.
  intros [Hij Hj] H0 H1 H0' H1'.
  destruct (@backoff_delay_range i r ltac:(lia) H0 H1) as [_ U].
  destruct (@backoff_delay_range j r' Hj H0' H1') as [L _].
  pose proof (@pow2_double i j Hij) as H.
  pose proof (pow2_ge_1 i) as Hi.
  set (p := inject_Z (2 ^ Z.of_nat i)) in *.
  set (q := inject_Z (2 ^ Z.of_nat j)) in *.
  lra.
Qed.

Lemma backoff_delays_from (E : Env) (k i n : nat) :
  Forall (fun d => exists j m, (i <= j < i + k)%nat
                               /\ d = backoff_delay j (random E m))
    (backoff_delays E k i n).
Proof.
  revert i n.
  induction k as [|k IH]; intros i n; simpl; constructor.
  - exists i, n. split; [lia | reflexivity].
  - eapply Forall_impl; [|apply (IH (S i) (S n))].
    intros d [j [m [Hj ->]]]. exists j, m. split; [lia | reflexivity].
Qed.

Lemma backoff_delays_sorted (E : Env) (k i n : nat) :
  (forall m, 0 <= random E m /\ random E m < 1) ->
  (i + k <= 4)%nat ->
  StronglySorted Qle (backoff_delays E k i n).
Proof.
  intros Hrand. revert i n.
  induction k as [|k IH]; intros i n Hk; simpl; constructor.
  - apply IH. lia.
  - eapply Forall_impl; [|apply (backoff_delays_from E k (S i) (S n))].
    intros d [j [m [Hj ->]]].
    apply backoff_delay_le; try apply Hrand. lia.
Qed.

(** X3.  In every run of [fetchWithRetry] with its default bound, with
    jitters in [[0, 1)], the delays slept never shrink: each one is at
    least as long as all the ones before it.  There are fewer of them than
    attempts allowed, and none is shorter than a second. *)
Theorem backoff_grows (E : Env) (url : jsstring) (options : FetchOptions)
    (tr : Trace) :
  (forall m, 0 <= random E m /\ random E m < 1) ->
  exists evs,
    snd (fetchWithRetry E url options default_maxRetries tr) = tr ++ evs
    /\ StronglySorted Qle (sleeps evs)
    /\ (List.length (sleeps evs) < 5)%nat
    /\ Forall (fun d => 1000 <= d) (sleeps evs).
Proof.
  intros Hrand.
  destruct (@fetchWithRetry_outcome E url options default_maxRetries tr)
    as [k [res [Hk [_ [Hrun _]]]]]; [unfold default_maxRetries; lia|].
  unfold default_maxRetries in Hk.
  eexists. rewrite Hrun. cbn [snd]. split; [reflexivity|].
  rewrite sleeps_app, sleeps_failed_rounds. cbn [sleeps]. rewrite app_nil_r.
  split; [apply backoff_delays_sorted; [exact Hrand | lia]|].
  split; [now rewrite length_backoff_delays|].
  eapply Forall_impl; [|apply (backoff_delays_from E k 0 (random_count tr))].
  intros d [j [m [Hj ->]]]. destruct (Hrand m) as [H0 H1].
  destruct (@backoff_delay_range j (random E m) ltac:(lia) H0 H1) as [L _].
  pose proof (pow2_ge_1 j) as Hp.
  set (p := inject_Z (2 ^ Z.of_nat j)) in *. lra.
Qed.

(* ================================================================= *)
(** ** Every run of the handler *)

(** Lines 101-126 end in one of three replies. *)
Lemma reply_shape (E : Env) (fen : value) (o : option Response)
    (tr tr' : Trace) (res : Result Reply) :
  try_catch (unwrap_response E fen o)
    (fun error => console Err ;;; ret (communication_failure (message error))) tr
  = (res, tr') ->
  exists reply, res = Ok reply /\ handler_reply reply.
Proof.
  unfold try_catch, unwrap_response, bind, await, ret, throw, console, emit.
  repeat match goal with
         | |- context [match ?x with _ => _ end] =>
             lazymatch x with
             | context [match _ with _ => _ end] => fail
             | _ => destruct x; cbv beta iota
             end
         end;
    intros [= <- _]; eexists; (split; [reflexivity|]);
    first [ apply reply_failure
          | apply reply_move
          | apply (reply_upstream_error _) ].
Qed.

(** The early exits of lines 46-75. *)
Lemma handler_early_exit (E : Env) (request : Request) (tr : Trace) :
  (forall fen, ~ accepted E request fen) ->
  exists reply evs,
    handler E request tr = (Ok reply, tr ++ evs)
    /\ handler_reply reply
    /\ (evs = [] \/ evs = [EvConsole Err]).
Proof.
  intros Hno. unfold handler.
  destruct (eqb (method request) (js "OPTIONS")) eqn:Hopt.
  { eexists; exists []. rewrite app_nil_r.
    split; [reflexivity|]. split; [constructor | now left]. }
  destruct (eqb (method request) (js "POST")) eqn:Hpost; simpl.
  2:{ eexists; exists []. rewrite app_nil_r.
      split; [reflexivity|]. split; [constructor | now left]. }
  destruct (truthy (env_value (GEMINI_API_KEY E))) eqn:Hkey; simpl.
  2:{ eexists; exists [EvConsole Err].
      split; [reflexivity|]. split; [constructor | now right]. }
  destruct (and_then (body request) (prop E (js "fen"))) as [fen|e] eqn:Hfen.
  2:{ eexists; exists []. rewrite app_nil_r.
      split; [reflexivity|]. split; [constructor | now left]. }
  destruct (truthy fen) eqn:Ht; simpl.
  { exfalso. apply (Hno fen). apply eqb_eq in Hpost. now repeat split. }
  eexists; exists []. rewrite app_nil_r.
  split; [reflexivity|]. split; [constructor | now left].
Qed.

(** The whole run of the handler.  Either it replies, and its trace is
    nothing but at most one line on the console, or the rounds of
    [fetchWithRetry] followed by lines on the console; or the position
    cannot be converted to a string, and line 79 throws before anything is
    done. *)
Lemma handler_trace (E : Env) (request : Request) (tr : Trace) :
  (exists reply evs,
      handler E request tr = (Ok reply, tr ++ evs)
      /\ handler_reply reply
      /\ ((evs = [] \/ evs = [EvConsole Err])
          \/ exists fen fen_text k levels,
               accepted E request fen /\ ToString E fen = Ok fen_text
               /\ (k < 5)%nat
               /\ evs = failed_rounds E (request_url E)
                          (request_options fen_text) k 0 (random_count tr)
                        ++ [EvFetch (request_url E) (request_options fen_text)]
                        ++ List.map EvConsole levels))
  \/ (exists fen e,
         accepted E request fen /\ ToString E fen = Throw e
         /\ handler E request tr = (Throw e, tr)).
Proof.
  destruct (accepted_dec E request) as [[fen Ha]|Hno].
  2:{ left.
      destruct (@handler_early_exit E request tr Hno) as [reply [evs [H [Hr He]]]].
      exists reply, evs. split; [exact H|]. split; [exact Hr | now left]. }
  destruct (ToString E fen) as [fen_text|e] eqn:Hs.
  2:{ right. exists fen, e. split; [exact Ha|]. split; [exact Hs|].
      now apply handler_rejects with (fen := fen). }
  left. rewrite (@handler_accepted E request fen fen_text tr Ha Hs).
  destruct (@fetchWithRetry_outcome E (request_url E) (request_options fen_text)
              default_maxRetries tr)
    as [k [res [Hk [_ [Hrun _]]]]]; [unfold default_maxRetries; lia|].
  destruct res as [o|e].
  - erewrite call_gemini_returned by exact Hrun.
    destruct (quiet_reply E fen o) as [res [lv Hq]].
    rewrite Hq.
    destruct (@reply_shape E fen o [] _ _ (Hq [])) as [reply [-> Hshape]].
    exists reply. eexists. split; [|split; [exact Hshape|]].
    + rewrite <- !app_assoc. reflexivity.
    + right. exists fen, fen_text, k, lv. split; [exact Ha|].
      split; [exact Hs|]. split; [exact Hk|]. reflexivity.
  - erewrite call_gemini_thrown by exact Hrun.
    eexists. eexists. split; [|split; [apply reply_failure|]].
    + rewrite <- !app_assoc. reflexivity.
    + right. exists fen, fen_text, k, [Err]. split; [exact Ha|].
      split; [exact Hs|]. split; [exact Hk|]. reflexivity.
Qed.

Lemma sleeps_console (levels : list ConsoleLevel) :
  sleeps (List.map EvConsole levels) = [].
Proof. induction levels as [|l levels IH]; [reflexivity | exact IH]. Qed.

(** X4.  To every request, whatever the upstream does, the handler either
    writes one reply, with the three CORS headers and one of the statuses
    200, 400, 405, 500 and 502, after at most five outbound calls and at
    most four sleeps; or, when the request passes the checks with a
    position that cannot be converted to a string, it throws at line 79,
    outside every try, before any call and without a reply. *)
Theorem handler_replies_or_throws (E : Env) (request : Request) (tr : Trace) :
  (exists reply evs,
      handler E request tr = (Ok reply, tr ++ evs)
      /\ handler_reply reply
      /\ reply_headers reply = cors_headers
      /\ In (reply_status reply) [200; 400; 405; 500; 502]%N
      /\ (fetch_count evs <= 5)%nat
      /\ (List.length (sleeps evs) <= 4)%nat)
  \/ (exists fen e,
         accepted E request fen /\ ToString E fen = Throw e
         /\ handler E request tr = (Throw e, tr)).
Proof.
  destruct (handler_trace E request tr)
    as [[reply [evs [H [Hr Hevs]]]]|Hthrow]; [left | now right].
  exists reply, evs. split; [exact H|]. split; [exact Hr|].
  split; [destruct Hr; reflexivity|].
  split; [destruct Hr; simpl; tauto|].
  destruct Hevs as [[->| ->]|[fen [fen_text [k [lv [_ [_ [Hk ->]]]]]]]].
  - split; [exact (Nat.le_0_l 5) | exact (Nat.le_0_l 4)].
  - split; [exact (Nat.le_0_l 5) | exact (Nat.le_0_l 4)].
  - rewrite !fetch_count_app, fetch_count_failed_rounds, fetch_count_console.
    rewrite !sleeps_app, sleeps_failed_rounds, sleeps_console.
    rewrite !length_app, length_backoff_delays.
    match goal with
    | |- context [fetch_count [EvFetch ?u ?o]] =>
        change (fetch_count [EvFetch u o]) with 1%nat;
        change (sleeps [EvFetch u o]) with (@nil Q)
    end.
    simpl List.length. lia.
Qed.

(** X5.  Whatever move the handler sends back is clean: a reply that
    carries a move is a 200 whose move is a string without white space,
    without quote characters and without full stops. *)
Theorem returned_move_is_clean (E : Env) (request : Request) (tr tr' : Trace)
    (reply : Reply) :
  handler E request tr = (Ok reply, tr') ->
  has_move reply = true ->
  exists move,
    reply = status_json 200 (VObj [ (js "move", VStr move) ])
    /\ Forall no_ws move /\ Forall plain move.
Proof.
  intros H Hmove.
  destruct (handler_trace E request tr)
    as [[reply' [evs [H' [Hr _]]]]|[fen [e [_ [_ H']]]]];
    [|rewrite H in H'; discriminate H'].
  rewrite H in H'. injection H' as <- _.
  destruct Hr; try discriminate Hmove.
  exists (cleanedMove raw). split; [reflexivity|].
  split; [apply cleanedMove_no_ws | apply remove_quotes_dots_clean].
Qed.

Lemma total_backoff_delays_bound (E : Env) (k n : nat) :
  (forall m, 0 <= random E m /\ random E m < 1) ->
  (k < 5)%nat ->
  0 <= total (backoff_delays E k 0 n) /\ total (backoff_delays E k 0 n) <= 19000.
Proof.
  intros Hrand Hk.
  pose proof (backoff_delay_bounds (Hrand n) (Hrand (S n)) (Hrand (S (S n)))
                (Hrand (S (S (S n))))) as [[L0 U0] [[L1 U1] [[L2 U2] [L3 U3]]]].
  destruct k as [|[|[|[|[|k]]]]]; [| | | | |lia];
    cbn [backoff_delays total fold_right]; split; lra.
Qed.

(** X6.  Whatever the upstream does and whatever the request, with jitters
    in [[0, 1)], the handler sleeps at most 19 seconds in total while it
    serves one request, whether it ends with a reply or not. *)
Theorem handler_wait_is_bounded (E : Env) (request : Request) (tr : Trace) :
  (forall m, 0 <= random E m /\ random E m < 1) ->
  exists res evs,
    handler E request tr = (res, tr ++ evs)
    /\ 0 <= total (sleeps evs) /\ total (sleeps evs) <= 19000.
Proof.
  intros Hrand.
  destruct (handler_trace E request tr)
    as [[reply [evs [H [_ Hevs]]]]|[fen [e [_ [_ H]]]]].
  - exists (Ok reply), evs. split; [exact H|].
    destruct Hevs as [[->| ->]|[fen [fen_text [k [lv [_ [_ [Hk ->]]]]]]]].
    + cbn. split; lra.
    + cbn. split; lra.
    + rewrite !sleeps_app, sleeps_failed_rounds, sleeps_console.
      match goal with
      | |- context [sleeps [EvFetch ?u ?o]] =>
          change (sleeps [EvFetch u o]) with (@nil Q)
      end.
      rewrite !app_nil_r. now apply total_backoff_delays_bound.
  - exists (Throw e), []. rewrite app_nil_r. split; [exact H|].
    cbn. split; lra.
Qed.

(* ================================================================= *)
(** ** More on the sanitization *)

Lemma drop_ws_all_ws (s : jsstring) : Forall ws s -> drop_ws s = [].
Proof.
  induction 1 as [|c s Hc Hs IH]; simpl; [reflexivity|].
  unfold ws in Hc. now rewrite Hc.
Qed.

Lemma drop_ws_app_ws (pre s : jsstring) :
  Forall ws pre -> drop_ws (pre ++ s) = drop_ws s.
Proof.
  induction 1 as [|c pre Hc Hpre IH]; simpl; [reflexivity|].
  unfold ws in Hc. now rewrite Hc.
Qed.

Lemma split_ws_first_app_ws (s post : jsstring) :
  Forall ws post -> split_ws_first (s ++ post) = split_ws_first s.
Proof.
  intros Hpost. induction s as [|c s IH]; simpl.
  - destruct Hpost as [|c post Hc _]; simpl; [reflexivity|].
    unfold ws in Hc. now rewrite Hc.
  - destruct (is_ws c); [reflexivity | now rewrite IH].
Qed.

Lemma split_ws_first_token (token rest : jsstring) :
  Forall no_ws token ->
  (rest = [] \/ exists c rest', rest = c :: rest' /\ ws c) ->
  split_ws_first (token ++ rest) = token.
Proof.
  intros Htoken Hrest.
  induction Htoken as [|c token Hc Htoken IH]; simpl.
  - destruct Hrest as [->|[c [rest' [-> Hc]]]]; simpl; [reflexivity|].
    unfold ws in Hc. now rewrite Hc.
  - unfold no_ws in Hc. now rewrite Hc, IH.
Qed.

(** Trimming at the end does not change the first token. *)
Lemma split_ws_first_trim (s : jsstring) :
  split_ws_first (trim s) = split_ws_first (drop_ws s).
Proof.
  destruct (drop_ws_suffix (rev (drop_ws s))) as [erp [Hr [Herp _]]].
  assert (Hmid : drop_ws s = trim s ++ rev erp).
  { unfold trim. rewrite <- rev_app_distr, <- Hr. now rewrite rev_involutive. }
  rewrite Hmid. symmetry. apply split_ws_first_app_ws.
  now apply Forall_rev.
Qed.

Lemma remove_quotes_dots_plain (s : jsstring) :
  Forall plain s -> remove_quotes_dots s = s.
Proof.
  induction 1 as [|c s Hc Hs IH]; simpl; [reflexivity|].
  unfold plain in Hc. now rewrite Hc, IH.
Qed.

(** X7.  The sanitization skips the white space in front, takes the token
    that follows and forgets everything from the first white space after
    it: on white space, then a non-empty token free of white space, then
    nothing or something that starts with white space, the move is the token
    without its quote characters and full stops. *)
Theorem sanitize_first_token (pre token rest : jsstring) :
  Forall ws pre ->
  token <> [] -> Forall no_ws token ->
  (rest = [] \/ exists c rest', rest = c :: rest' /\ ws c) ->
  sanitize (pre ++ token ++ rest) = remove_quotes_dots token.
Proof.
  intros Hpre Hne Htoken Hrest.
  unfold sanitize, rawMove, cleanedMove.
  rewrite split_ws_first_trim, (drop_ws_app_ws _ Hpre).
  destruct Htoken as [|c token Hc Htoken]; [congruence|].
  simpl drop_ws. unfold no_ws in Hc. rewrite Hc.
  change (c :: token ++ rest) with ((c :: token) ++ rest).
  rewrite split_ws_first_token; [reflexivity | now constructor | exact Hrest].
Qed.

(** X8.  The sanitization leaves a text unchanged exactly when the text has
    no white space, no quote character and no full stop: a move such as
    Nf6, O-O or e8=Q+ goes through as it is. *)
Theorem sanitize_fixed_points (text : jsstring) :
  sanitize text = text <-> Forall no_ws text /\ Forall plain text.
Proof.
  split.
  - intros H. rewrite <- H. split.
    + apply cleanedMove_no_ws.
    + apply remove_quotes_dots_clean.
  - intros [Hws Hplain]. unfold sanitize, rawMove, cleanedMove.
    rewrite (trim_fixed Hws), (split_ws_first_fixed Hws).
    now apply remove_quotes_dots_plain.
Qed.

(* ================================================================= *)
(** ** Edges of the extraction *)

Lemma sanitize_blank (t : jsstring) : Forall ws t -> sanitize t = [].
Proof.
  intros H. unfold sanitize, rawMove, cleanedMove, trim.
  now rewrite (drop_ws_all_ws H).
Qed.

(** The reply of the handler when [fetchWithRetry] ends with the response
    [r]: what lines 101-126 make of [r]. *)
Lemma handler_after_success (E : Env) (request : Request) (fen : value)
    (fen_text : jsstring) (tr : Trace) (k : nat) (r : Response) :
  accepted E request fen ->
  ToString E fen = Ok fen_text ->
  succeeds_after E tr k r ->
  fst (handler E request tr)
  = fst (try_catch (unwrap_response E fen (Some r))
           (fun error => console Err ;;; ret (communication_failure (message error)))
           []).
Proof.
  intros Ha Hs Hafter.
  eapply (@handler_reply_returned E request fen fen_text tr); [exact Ha | exact Hs |].
  apply (proj1 (@fetchWithRetry_succeeds_after E (request_url E)
                  (request_options fen_text) tr k r Hafter)).
Qed.

(** The reply of the handler when the five attempts fail. *)
Lemma handler_after_failure (E : Env) (request : Request) (fen : value)
    (fen_text : jsstring) (tr : Trace) :
  accepted E request fen ->
  ToString E fen = Ok fen_text ->
  (forall j, (j < 5)%nat -> fails (upstream E (fetch_count tr + j)) = true) ->
  fst (handler E request tr)
  = Ok (communication_failure
          (message (failure (upstream E (fetch_count tr + 4))))).
Proof.
  intros Ha Hs Hfail.
  rewrite (@handler_reply_thrown E request fen fen_text tr _ _ Ha Hs
             (@fetchWithRetry_gives_up E (request_url E)
                (request_options fen_text) tr Hfail)).
  reflexivity.
Qed.

(** X9.  A text made of white space only is not treated as absent: for a
    position that converts to a string, when the upstream ends up answering
    with such a text, the handler replies 200, with the empty string as the
    move. *)
Theorem blank_text_gives_empty_move (E : Env) (request : Request) (fen : value)
    (fen_text : jsstring) (tr : Trace) (k : nat) (r : Response)
    (result : value) (t : jsstring) :
  accepted E request fen ->
  ToString E fen = Ok fen_text ->
  succeeds_after E tr k r ->
  json r = Ok result ->
  result_text E result = Ok (VStr t) ->
  t <> [] -> Forall ws t ->
  fst (handler E request tr)
  = Ok (status_json 200 (VObj [ (js "move", VStr []) ])).
Proof.
  intros Ha Hs Hafter Hj Ht Hne Hws.
  rewrite (@handler_after_success E request fen fen_text tr k r Ha Hs Hafter).
  unfold try_catch.
  rewrite (@unwrap_usable E fen fen_text r result t [] Hs Hj Ht Hne).
  cbn [fst]. now rewrite (sanitize_blank Hws).
Qed.

(** X10.  A text that is present but is not a string (a number other than
    0, true, an array or an object) is not caught by the test of line 105:
    calling [trim] on it throws, and, for a position that converts to a
    string, the reply is the catch-all 500 with the engine's message, not a
    502. *)
Theorem non_string_text_is_a_500 (E : Env) (request : Request) (fen : value)
    (fen_text : jsstring) (tr : Trace) (k : nat) (r : Response)
    (result t : value) :
  accepted E request fen ->
  ToString E fen = Ok fen_text ->
  succeeds_after E tr k r ->
  json r = Ok result ->
  result_text E result = Ok t -> truthy t = true ->
  (forall s, t <> VStr s) ->
  fst (handler E request tr)
  = Ok (communication_failure (engine_message E (NotAFunction (js "trim")))).
Proof.
  intros Ha Hs Hafter Hj Ht Htr Hns.
  rewrite (@handler_after_success E request fen fen_text tr k r Ha Hs Hafter).
  unfold try_catch.
  rewrite (@unwrap_not_a_string E fen r result t [] Hj Ht Htr Hns).
  reflexivity.
Qed.

(* ================================================================= *)
(** ** The order of the checks on the body *)

(** X11.  For a POST received while the key is configured: a body that
    cannot be read, or that is null or undefined (the JSON value null
    included), is answered with the invalid-body message; a body that can
    be read and whose [fen] is absent or falsy (the empty string, 0, false,
    null) is answered with the missing-position message.  Both replies are
    400, and nothing else is done. *)
Theorem body_checks (E : Env) (request : Request) (tr : Trace) :
  method request = js "POST" ->
  configured E = true ->
  (forall e, body request = Throw e ->
             handler E request tr
             = (Ok (status_json 400 (error_object (js "Invalid JSON request body."))),
                tr))
  /\ (forall b, body request = Ok b -> nullish b = true ->
                handler E request tr
                = (Ok (status_json 400
                         (error_object (js "Invalid JSON request body."))),
                   tr))
  /\ (forall b fen, body request = Ok b -> nullish b = false ->
                    get E b (js "fen") = Ok fen -> truthy fen = false ->
                    handler E request tr
                    = (Ok (status_json 400
                             (error_object
                                (js "Missing FEN string in request body."))),
                       tr)).
Proof.
  intros Hm Hk. unfold handler, configured in *.
  rewrite Hm, method_POST_not_OPTIONS, eqb_refl, Hk. simpl.
  split; [|split].
  - intros e ->. reflexivity.
  - intros b -> Hn. destruct b; try discriminate Hn; reflexivity.
  - intros b fen -> Hn Hg Ht. simpl. unfold prop. now rewrite Hg, Ht.
Qed.


(* ================================================================= *)
(** ** Every run of the standalone server's callback *)

Lemma proxy_error_message_spec (e : Error) :
  (if truthy (VStr (message e)) then message e
   else js "An unknown error occurred in the proxy.")
  = proxy_error_message e
  /\ proxy_error_message e <> [].
Proof.
  unfold proxy_error_message. destruct (message e); simpl; split;
    (reflexivity || discriminate).
Qed.

(** The callback, by cases on what it meets. *)
Lemma proxy_post_cases (E : Env) (req : ExpressRequest) (tr : Trace) :
  proxy_post E req tr
  = match destructure_prompt_model E (req_body req) with
    | Throw e =>
        (Ok (res_status_json 500 (error_object (proxy_error_message e))),
         tr ++ [EvConsole Err])
    | Ok (prompt, model) =>
        if negb (truthy prompt) || negb (truthy model) then
          (Ok (res_status_json 400
                 (error_object (js "Missing 'prompt' or 'model' in request body."))),
           tr)
        else
          match geminiUrl E model with
          | Throw e =>
              (Ok (res_status_json 500 (error_object (proxy_error_message e))),
               tr ++ [EvConsole Err])
          | Ok url =>
              match upstream E (fetch_count tr) with
              | Rejected e =>
                  (Ok (res_status_json 500 (error_object (proxy_error_message e))),
                   tr ++ [EvFetch url (proxy_options prompt); EvConsole Err])
              | Resolved r =>
                  match json r with
                  | Ok data =>
                      (Ok (res_json data),
                       tr ++ [EvFetch url (proxy_options prompt)])
                  | Throw e =>
                      (Ok (res_status_json 500
                             (error_object (proxy_error_message e))),
                       tr ++ [EvFetch url (proxy_options prompt); EvConsole Err])
                  end
              end
          end
    end.
Proof.
  unfold proxy_post, try_catch, bind, await, fetch, console, emit, ret.
  destruct (destructure_prompt_model E (req_body req)) as [[prompt model]|e].
  - destruct (negb (truthy prompt) || negb (truthy model)); [reflexivity|].
    destruct (geminiUrl E model) as [url|e].
    + destruct (upstream E (fetch_count tr)) as [e|r].
      * rewrite <- app_assoc. cbn [app].
        now rewrite (proj1 (proxy_error_message_spec e)).
      * destruct (json r) as [data|e]; [reflexivity|].
        rewrite <- app_assoc. cbn [app].
        now rewrite (proj1 (proxy_error_message_spec e)).
    + now rewrite (proj1 (proxy_error_message_spec e)).
  - now rewrite (proj1 (proxy_error_message_spec e)).
Qed.

(** X12.  The callback of the standalone server never throws and never
    retries: to every request it writes one reply, a 400 for a missing
    prompt or model, a 200 that relays the upstream body, or a 500 with a
    non-empty message, after at most one outbound call, without drawing a
    jitter and without sleeping. *)
Theorem proxy_always_replies (E : Env) (req : ExpressRequest) (tr : Trace) :
  exists reply evs,
    proxy_post E req tr = (Ok reply, tr ++ evs)
    /\ proxy_reply reply
    /\ In (reply_status reply) [200; 400; 500]%N
    /\ reply_body reply <> None
    /\ (fetch_count evs <= 1)%nat
    /\ sleeps evs = [] /\ random_count evs = 0%nat.
Proof.
  assert (Hshape : forall reply evs,
             proxy_reply reply ->
             (evs = [] \/ evs = [EvConsole Err]
              \/ exists u o, evs = [EvFetch u o]
                             \/ evs = [EvFetch u o; EvConsole Err]) ->
             proxy_reply reply
             /\ In (reply_status reply) [200; 400; 500]%N
             /\ reply_body reply <> None
             /\ (fetch_count evs <= 1)%nat
             /\ sleeps evs = [] /\ random_count evs = 0%nat).
  { intros reply evs Hr Hevs. split; [exact Hr|].
    split; [destruct Hr; simpl; tauto|].
    split; [destruct Hr; discriminate|].
    destruct Hevs as [->|[->|[u [o [->| ->]]]]]; repeat split;
      try reflexivity;
      first [exact (Nat.le_0_l 1) | exact (Nat.le_refl 1)]. }
  rewrite proxy_post_cases.
  destruct (destructure_prompt_model E (req_body req)) as [[prompt model]|e].
  - destruct (negb (truthy prompt) || negb (truthy model)).
    + eexists; exists []. rewrite app_nil_r.
      split; [reflexivity|]. apply Hshape; [constructor | now left].
    + destruct (geminiUrl E model) as [url|e].
      * destruct (upstream E (fetch_count tr)) as [e|r].
        -- eexists; eexists. split; [reflexivity|].
           apply Hshape;
             [constructor; apply proxy_error_message_spec
             | right; right; eexists; eexists; right; reflexivity].
        -- destruct (json r) as [data|e].
           ++ eexists; eexists. split; [reflexivity|].
              apply Hshape;
                [constructor | right; right; eexists; eexists; left; reflexivity].
           ++ eexists; eexists. split; [reflexivity|].
              apply Hshape;
                [constructor; apply proxy_error_message_spec
                | right; right; eexists; eexists; right; reflexivity].
      * eexists; eexists. split; [reflexivity|].
        apply Hshape;
          [constructor; apply proxy_error_message_spec | now right; left].
  - eexists; eexists. split; [reflexivity|].
    apply Hshape; [constructor; apply proxy_error_message_spec | now right; left].
Qed.

(** X13.  For a model that converts to a string, when the single call of
    the standalone server fails (the transport throws, or the body of the
    response is not JSON) the reply is a 500 whose error is the exception's
    message, or a fixed text when that message is empty; the call is not
    repeated. *)
Theorem proxy_failure_is_reported (E : Env) (req : ExpressRequest)
    (prompt model : value) (url : jsstring) (e : Error) (tr : Trace) :
  destructure_prompt_model E (req_body req) = Ok (prompt, model) ->
  truthy prompt = true -> truthy model = true ->
  geminiUrl E model = Ok url ->
  (upstream E (fetch_count tr) = Rejected e
   \/ exists r, upstream E (fetch_count tr) = Resolved r /\ json r = Throw e) ->
  proxy_post E req tr
  = (Ok (res_status_json 500 (error_object (proxy_error_message e))),
     tr ++ [EvFetch url (proxy_options prompt); EvConsole Err])
  /\ (message e = [] ->
      proxy_error_message e = js "An unknown error occurred in the proxy.")
  /\ (message e <> [] -> proxy_error_message e = message e).
Proof.
  intros Hd Hp Hm Hu Hfail. split; [|split].
  - rewrite proxy_post_cases, Hd, Hp, Hm, Hu. cbn [negb orb].
    destruct Hfail as [->|[r [-> ->]]]; reflexivity.
  - unfold proxy_error_message. now intros ->.
  - unfold proxy_error_message. destruct (message e); congruence.
Qed.

(* ================================================================= *)
(** ** What the handler sends *)

(** X14.  Every attempt of one run of the handler replays the same request:
    the same URL, which ends with the configured key, and the same options,
    a POST whose payload carries, as the user's text, the fixed question
    followed by the position exactly as it was received. *)
Theorem handler_replays_one_request (E : Env) (key : jsstring)
    (request : Request) (fen : jsstring) (tr : Trace) :
  GEMINI_API_KEY E = Some key ->
  accepted E request (VStr fen) ->
  exists reply evs,
    handler E request tr = (Ok reply, tr ++ evs)
    /\ (1 <= fetch_count evs)%nat
    /\ forall u o,
         In (EvFetch u o) evs ->
         u = GEMINI_API_BASE ++ MODEL_NAME ++ js ":generateContent?key=" ++ key
         /\ o = fetchOptions
                  (payload
                     (js "Analyze the current board state provided by this FEN string and give the single best move: "
                      ++ fen))
         /\ fo_method o = js "POST"
         /\ payload_user_text E o
            = Ok (VStr (js "Analyze the current board state provided by this FEN string and give the single best move: "
                        ++ fen)).
Proof.
  intros Hkey Ha.
  destruct (@handler_calls E request (VStr fen) fen tr Ha eq_refl)
    as [reply [evs [H [[Hge _] [Hall _]]]]].
  exists reply, evs. split; [exact H|]. split; [exact Hge|].
  intros u o Hin. destruct (Hall u o Hin) as [-> ->].
  split; [now apply request_url_key|].
  split; [reflexivity|]. split; reflexivity.
Qed.

(* ================================================================= *)
(** ** What the caller is told of an upstream error *)

(** X15.  For a position that converts to a string, when the five attempts
    fail and the fifth is a response with a status other than 429 that is
    not a success, whose body can be read, the detail of the handler's 500
    names that status, in decimal, and carries that body whole. *)
Theorem upstream_error_detail (E : Env) (request : Request) (fen : value)
    (fen_text : jsstring) (tr : Trace) (r : Response) (errorBody : jsstring) :
  accepted E request fen ->
  ToString E fen = Ok fen_text ->
  (forall j, (j < 5)%nat -> fails (upstream E (fetch_count tr + j)) = true) ->
  upstream E (fetch_count tr + 4) = Resolved r ->
  status r <> 429%N ->
  text r = Ok errorBody ->
  fst (handler E request tr)
  = Ok (communication_failure
          (js "HTTP error! status: " ++ of_N (status r)
           ++ js ". Body: " ++ errorBody)).
Proof.
  intros Ha Hs Hfail Hr Hst Ht.
  rewrite (@handler_after_failure E request fen fen_text tr Ha Hs Hfail).
  rewrite Hr. simpl failure.
  apply N.eqb_neq in Hst. now rewrite Hst, Ht.
Qed.

(** X18.  For a position that converts to a string, when the five attempts
    fail and the fifth is a response, not a 429 and not a success, whose
    body cannot be read, the detail of the handler's 500 is the message of
    the failed read. *)
Theorem unreadable_error_body (E : Env) (request : Request) (fen : value)
    (fen_text : jsstring) (tr : Trace) (r : Response) (e : Error) :
  accepted E request fen ->
  ToString E fen = Ok fen_text ->
  (forall j, (j < 5)%nat -> fails (upstream E (fetch_count tr + j)) = true) ->
  upstream E (fetch_count tr + 4) = Resolved r ->
  status r <> 429%N ->
  text r = Throw e ->
  fst (handler E request tr) = Ok (communication_failure (message e)).
Proof.
  intros Ha Hs Hfail Hr Hst Ht.
  rewrite (@handler_after_failure E request fen fen_text tr Ha Hs Hfail).
  rewrite Hr. simpl failure.
  apply N.eqb_neq in Hst. now rewrite Hst, Ht.
Qed.

(* ================================================================= *)
(** ** When the upstream is called, and when the server serves *)

(** X16.  The handler calls the upstream exactly for the requests that pass
    its checks with a position that converts to a string: a POST, received
    while the key is configured, whose body can be read and has a truthy
    [fen] of which line 79 can make a text.  Every other request ends
    without an outbound call. *)
Theorem handler_calls_iff_accepted_and_convertible (E : Env) (request : Request)
    (tr : Trace) :
  exists res evs,
    handler E request tr = (res, tr ++ evs)
    /\ ((0 < fetch_count evs)%nat
        <-> exists fen fen_text,
              accepted E request fen /\ ToString E fen = Ok fen_text).
Proof.
  destruct (accepted_dec E request) as [[fen Ha]|Hno].
  - destruct (ToString E fen) as [fen_text|e] eqn:Hs.
    + destruct (@handler_calls E request fen fen_text tr Ha Hs)
        as [reply [evs [H [[Hge _] _]]]].
      exists (Ok reply), evs. split; [exact H|].
      split; [intros _; now exists fen, fen_text | intros _; lia].
    + exists (Throw e), []. rewrite app_nil_r.
      split; [now apply handler_rejects with (fen := fen)|].
      split; [cbn; lia|].
      intros [fen' [fen_text [Ha' Hs']]].
      rewrite (accepted_unique Ha' Ha) in Hs'. congruence.
  - destruct (@handler_not_accepted E request tr Hno)
      as [reply [evs [H [Hc _]]]].
    exists (Ok reply), evs. split; [exact H|].
    split; [lia|]. intros [fen [_ [Ha _]]]. now destruct (Hno fen).
Qed.

Lemma proxy_post_total (E : Env) (req : ExpressRequest) (tr : Trace) :
  exists reply tr', proxy_post E req tr = (Ok reply, tr').
Proof.
  rewrite proxy_post_cases.
  destruct (destructure_prompt_model E (req_body req)) as [[prompt model]|e];
    [|eauto].
  destruct (negb (truthy prompt) || negb (truthy model)); [eauto|].
  destruct (geminiUrl E model) as [url|e]; [|eauto].
  destruct (upstream E (fetch_count tr)) as [e|r]; [eauto|].
  destruct (json r); eauto.
Qed.

(** X17.  The standalone server answers a request exactly when the key is
    configured: with the key, the process logs twice, listens on port 3000
    and the request gets the callback's reply; without it, no request gets
    a reply. *)
Theorem proxy_serves_iff_configured (E : Env) (req : ExpressRequest)
    (tr : Trace) :
  ((exists reply, fst (proxy_serve E req tr) = Ok (Some reply))
   <-> configured E = true)
  /\ (configured E = true ->
      proxy_main E tr = (Ok (Listening 3000), tr ++ [EvConsole Log; EvConsole Log])
      /\ proxy_serve E req tr
         = (match fst (proxy_post E req (tr ++ [EvConsole Log; EvConsole Log])) with
            | Ok reply => Ok (Some reply)
            | Throw e => Throw e
            end,
            snd (proxy_post E req (tr ++ [EvConsole Log; EvConsole Log])))).
Proof.
  assert (Hon : configured E = true ->
                proxy_main E tr
                = (Ok (Listening 3000), tr ++ [EvConsole Log; EvConsole Log])
                /\ proxy_serve E req tr
                   = (match fst (proxy_post E req
                                   (tr ++ [EvConsole Log; EvConsole Log])) with
                      | Ok reply => Ok (Some reply)
                      | Throw e => Throw e
                      end,
                      snd (proxy_post E req
                             (tr ++ [EvConsole Log; EvConsole Log])))).
  { intros Hk. unfold configured in Hk.
    assert (Hmain : proxy_main E tr
                    = (Ok (Listening 3000),
                       tr ++ [EvConsole Log; EvConsole Log])).
    { unfold proxy_main. rewrite Hk. cbn [negb].
      unfold bind, console, emit, ret. now rewrite <- app_assoc. }
    split; [exact Hmain|].
    unfold proxy_serve, bind at 1. rewrite Hmain. unfold bind, ret.
    destruct (proxy_post E req (tr ++ [EvConsole Log; EvConsole Log]))
      as [[reply|e] tr1]; reflexivity. }
  split; [|exact Hon].
  split.
  - intros [reply H]. destruct (configured E) eqn:Hk; [reflexivity|].
    exfalso. revert H. unfold configured in Hk.
    unfold proxy_serve, bind at 1, proxy_main. rewrite Hk. discriminate.
  - intros Hk. destruct (Hon Hk) as [_ Hserve].
    destruct (proxy_post_total E req (tr ++ [EvConsole Log; EvConsole Log]))
      as [reply [tr' Hpost]].
    exists reply. now rewrite Hserve, Hpost.
Qed.

(* ================================================================= *)
(** ** Values that cannot be converted to a string *)

Lemma ToString_own_toString (E : Env) (props : list (jsstring * value)) :
  has_own (js "toString") props = true ->
  ToString E (VObj props) = Throw (TypeError E (NotPrimitive (VObj props))).
Proof. intros H. simpl. now rewrite H. Qed.

(** X19.  A position that is an object with a property [toString] of its
    own passes the checks of the handler, and cannot be converted to a
    string, since what JSON can put there is not a function: line 79 throws
    a TypeError outside every try, so the handler throws, before any
    outbound call and without a reply. *)
Theorem unconvertible_position (E : Env) (request : Request)
    (props : list (jsstring * value)) (tr : Trace) :
  accepted E request (VObj props) ->
  has_own (js "toString") props = true ->
  handler E request tr = (Throw (TypeError E (NotPrimitive (VObj props))), tr).
Proof.
  intros Ha Hown.
  apply handler_rejects with (fen := VObj props); [exact Ha|].
  now apply ToString_own_toString.
Qed.

(** X20.  In the standalone server the same kind of value, given as the
    model, makes line 35 throw inside the try: the reply is the 500 of the
    catch with the TypeError's message, and no outbound call is made. *)
Theorem unconvertible_model (E : Env) (req : ExpressRequest) (prompt : value)
    (props : list (jsstring * value)) (tr : Trace) :
  destructure_prompt_model E (req_body req) = Ok (prompt, VObj props) ->
  truthy prompt = true ->
  has_own (js "toString") props = true ->
  proxy_post E req tr
  = (Ok (res_status_json 500
           (error_object
              (proxy_error_message (TypeError E (NotPrimitive (VObj props)))))),
     tr ++ [EvConsole Err]).
Proof.
  intros Hd Hp Hown.
  rewrite proxy_post_cases, Hd, Hp. cbn [truthy negb orb].
  unfold geminiUrl. now rewrite (ToString_own_toString E props Hown).
Qed.

(* ================================================================= *)
(** ** The further properties at work on the sample worlds *)

(** Two failed rounds and a success, under a bound of five. *)
Lemma fetchWithRetry_runs_flaky :
  fetchWithRetry Sample.flaky Sample.url Sample.options 0 [] = (Ok None, [])
  /\ exists k res,
       (k < 5)%nat
       /\ (forall j, (j < k)%nat ->
                     fails (upstream Sample.flaky (fetch_count [] + j)) = true)
       /\ fetchWithRetry Sample.flaky Sample.url Sample.options 5 []
          = (res,
             [] ++ failed_rounds Sample.flaky Sample.url Sample.options k 0
                     (random_count [])
                ++ [EvFetch Sample.url Sample.options])
       /\ ((exists r, upstream Sample.flaky (fetch_count [] + k) = Resolved r
                      /\ fails (Resolved r) = false /\ res = Ok (Some r))
           \/ (k = (5 - 1)%nat
               /\ fails (upstream Sample.flaky (fetch_count [] + k)) = true
               /\ res = Throw (failure (upstream Sample.flaky
                                          (fetch_count [] + k))))).
Proof.
  apply (@fetchWithRetry_runs Sample.flaky Sample.url Sample.options 5 []).
  lia.
Defined.

(** An upstream that answers at once. *)
Lemma first_attempt_success_sample :
  fetchWithRetry Sample.unconfigured Sample.url Sample.options 5 []
  = (Ok (Some (Sample.success (js "e4"))),
     [] ++ [EvFetch Sample.url Sample.options]).
Proof.
  apply (@first_attempt_success_is_immediate Sample.unconfigured Sample.url
           Sample.options 5 [] (Sample.success (js "e4"))).
  - lia.
  - reflexivity.
  - discriminate.
  - reflexivity.
Defined.

(** Five answers 429, with the largest jitter there is. *)
Lemma backoff_grows_always_429 :
  exists evs,
    snd (fetchWithRetry Sample.always_429_slowest Sample.url Sample.options
           default_maxRetries [])
    = [] ++ evs
    /\ StronglySorted Qle (sleeps evs)
    /\ (List.length (sleeps evs) < 5)%nat
    /\ Forall (fun d => 1000 <= d) (sleeps evs).
Proof.
  apply (@backoff_grows Sample.always_429_slowest Sample.url Sample.options []).
  intros m. split; simpl; [discriminate | reflexivity].
Defined.

(** The move of the flaky world. *)
Lemma returned_move_is_clean_flaky :
  exists move,
    status_json 200 (VObj [ (js "move", VStr (js "e4")) ])
    = status_json 200 (VObj [ (js "move", VStr move) ])
    /\ Forall no_ws move /\ Forall plain move.
Proof.
  apply (@returned_move_is_clean Sample.flaky (post_fen (js "startpos")) []
           (snd (handler Sample.flaky (post_fen (js "startpos")) []))
           (status_json 200 (VObj [ (js "move", VStr (js "e4")) ]))).
  - reflexivity.
  - reflexivity.
Defined.

(** The wait of a request that meets five answers 429 with the largest
    jitter there is. *)
Lemma handler_wait_is_bounded_always_429 :
  exists res evs,
    handler Sample.always_429_slowest (post_fen (js "startpos")) []
    = (res, [] ++ evs)
    /\ 0 <= total (sleeps evs) /\ total (sleeps evs) <= 19000.
Proof.
  apply (@handler_wait_is_bounded Sample.always_429_slowest
           (post_fen (js "startpos")) []).
  intros m. split; simpl; [discriminate | reflexivity].
Defined.

(** Two spaces, a quoted move with a full stop, and a remark. *)
Lemma sanitize_first_token_sample :
  sanitize (js "  " ++ js "'Nf6'." ++ js " is best") = js "Nf6".
Proof.
  apply (@sanitize_first_token (js "  ") (js "'Nf6'.") (js " is best")).
  - repeat constructor.
  - discriminate.
  - repeat constructor.
  - right. exists 32%N, (js "is best"). split; reflexivity.
Defined.

(** An answer of white space. *)
Lemma blank_text_sample :
  fst (handler MoreSamples.blank (post_fen (js "startpos")) [])
  = Ok (status_json 200 (VObj [ (js "move", VStr []) ])).
Proof.
  apply (@blank_text_gives_empty_move MoreSamples.blank
           (post_fen (js "startpos")) (VStr (js "startpos")) (js "startpos") []
           0 (Sample.success [32%N; 10%N; 9%N])
           (Sample.answer [32%N; 10%N; 9%N]) [32%N; 10%N; 9%N]).
  - repeat split; reflexivity.
  - reflexivity.
  - repeat split; [lia | intros j Hj; lia].
  - reflexivity.
  - reflexivity.
  - discriminate.
  - repeat constructor.
Defined.

(** An answer whose text is a number. *)
Lemma non_string_text_sample :
  fst (handler MoreSamples.numeric (post_fen (js "startpos")) [])
  = Ok (communication_failure (js "TypeError")).
Proof.
  apply (@non_string_text_is_a_500 MoreSamples.numeric
           (post_fen (js "startpos")) (VStr (js "startpos")) (js "startpos") []
           0 MoreSamples.numeric_answer
           (VObj [ (js "candidates",
                     VArr [ VObj [ (js "content",
                                     VObj [ (js "parts",
                                              VArr [ VObj [ (js "text", VNum 42) ] ]) ]) ] ]) ])
           (VNum 42)).
  - repeat split; reflexivity.
  - reflexivity.
  - repeat split; [lia | intros j Hj; lia].
  - reflexivity.
  - reflexivity.
  - reflexivity.
  - intros s. discriminate.
Defined.

(** A body that is null, and a position that is 0. *)
Lemma body_checks_samples :
  handler Sample.flaky MoreSamples.null_post []
  = (Ok (status_json 400 (error_object (js "Invalid JSON request body."))), [])
  /\ handler Sample.flaky MoreSamples.zero_post []
     = (Ok (status_json 400
              (error_object (js "Missing FEN string in request body."))), []).
Proof.
  split.
  - exact (proj1 (proj2 (@body_checks Sample.flaky MoreSamples.null_post []
                           eq_refl eq_refl))
             VNull eq_refl eq_refl).
  - exact (proj2 (proj2 (@body_checks Sample.flaky MoreSamples.zero_post []
                           eq_refl eq_refl))
             (VObj [ (js "fen", VNum 0) ]) (VNum 0)
             eq_refl eq_refl eq_refl eq_refl).
Defined.

(** A transport error without a message. *)
Lemma proxy_failure_sample :
  fst (proxy_post MoreSamples.broken
         (post_prompt (js "Best move?") (js "gemini-pro")) [])
  = Ok (res_status_json 500
          (error_object (js "An unknown error occurred in the proxy."))).
Proof.
  destruct (@proxy_failure_is_reported MoreSamples.broken
              (post_prompt (js "Best move?") (js "gemini-pro"))
              (VStr (js "Best move?")) (VStr (js "gemini-pro"))
              (js "https://generativelanguage.googleapis.com/v1beta/models/gemini-pro:generateContent?key=s3cret")
              MoreSamples.silent_error []
              eq_refl eq_refl eq_refl eq_refl (or_introl eq_refl))
    as [H [Hempty _]].
  rewrite H. cbn [fst]. now rewrite (Hempty eq_refl).
Defined.

(** The request that the flaky world receives three times. *)
Lemma handler_replays_one_request_flaky :
  exists reply evs,
    handler Sample.flaky (post_fen (js "startpos")) [] = (Ok reply, [] ++ evs)
    /\ (1 <= fetch_count evs)%nat
    /\ forall u o,
         In (EvFetch u o) evs ->
         u = GEMINI_API_BASE ++ MODEL_NAME ++ js ":generateContent?key="
             ++ js "s3cret"
         /\ o = fetchOptions
                  (payload
                     (js "Analyze the current board state provided by this FEN string and give the single best move: "
                      ++ js "startpos"))
         /\ fo_method o = js "POST"
         /\ payload_user_text Sample.flaky o
            = Ok (VStr (js "Analyze the current board state provided by this FEN string and give the single best move: "
                        ++ js "startpos")).
Proof.
  apply (@handler_replays_one_request Sample.flaky (js "s3cret")
           (post_fen (js "startpos")) (js "startpos") []).
  - reflexivity.
  - repeat split; reflexivity.
Defined.

(** Five answers 503. *)
Lemma upstream_error_detail_down :
  fst (handler MoreSamples.down (post_fen (js "startpos")) [])
  = Ok (communication_failure (js "HTTP error! status: 503. Body: overloaded")).
Proof.
  apply (@upstream_error_detail MoreSamples.down (post_fen (js "startpos"))
           (VStr (js "startpos")) (js "startpos") [] Sample.unavailable
           (js "overloaded")).
  - repeat split; reflexivity.
  - reflexivity.
  - intros [|j] Hj; reflexivity.
  - reflexivity.
  - discriminate.
  - reflexivity.
Defined.

(** The server started with the key. *)
Lemma proxy_serves_configured :
  proxy_main Sample.once_limited []
  = (Ok (Listening 3000), [EvConsole Log; EvConsole Log])
  /\ fst (proxy_serve Sample.once_limited Sample.empty_body [])
     = Ok (Some (res_status_json 400
                   (error_object
                      (js "Missing 'prompt' or 'model' in request body.")))).
Proof.
  destruct (proj2 (@proxy_serves_iff_configured Sample.once_limited
                     Sample.empty_body []) eq_refl) as [Hmain Hserve].
  split; [exact Hmain|]. rewrite Hserve. reflexivity.
Defined.

(** Five answers 500 whose body cannot be read. *)
Lemma unreadable_error_body_truncated :
  fst (handler MoreSamples.truncated (post_fen (js "startpos")) [])
  = Ok (communication_failure (js "body stream aborted")).
Proof.
  apply (@unreadable_error_body MoreSamples.truncated (post_fen (js "startpos"))
           (VStr (js "startpos")) (js "startpos") []
           (mkResponse 500 false (Throw MoreSamples.aborted)
              (Throw MoreSamples.aborted))
           MoreSamples.aborted).
  - repeat split; reflexivity.
  - reflexivity.
  - intros [|j] Hj; reflexivity.
  - reflexivity.
  - discriminate.
  - reflexivity.
Defined.

(** A position that is an object with a property toString. *)
Lemma unconvertible_position_sample :
  handler Sample.flaky MoreSamples.unprintable_post []
  = (Throw (mkError (js "TypeError") (js "TypeError")), []).
Proof.
  apply (@unconvertible_position Sample.flaky MoreSamples.unprintable_post
           [ (js "toString", VNum 0) ] []).
  - repeat split; reflexivity.
  - reflexivity.
Defined.

(** A model that is an object with a property toString. *)
Lemma unconvertible_model_sample :
  proxy_post Sample.flaky MoreSamples.unprintable_model []
  = (Ok (res_status_json 500 (error_object (js "TypeError"))),
     [] ++ [EvConsole Err]).
Proof.
  apply (@unconvertible_model Sample.flaky MoreSamples.unprintable_model
           (VStr (js "Best move?")) [ (js "toString", VNum 0) ] []).
  - reflexivity.
  - reflexivity.
  - reflexivity.
Defined.
